(** * inversify-koa-utils: route registration and request dispatch

    A shallow embedding of [src/utils.ts] (the path join), of
    [src/decorators.ts] (the metadata that the decorators store) and of
    [src/server.ts] (route registration, the authorization gate, the
    parameter extractor and the dispatcher), with the properties the
    specification states about them. *)

From Stdlib Require Import String Ascii List ZArith Bool Lia DecimalString.
From stdpp Require Import gmap strings list.
From Equations Require Import Equations.
Import ListNotations.

Local Open Scope string_scope.
Local Open Scope list_scope.

(** ** JavaScript values *)

Module JS.

(** What a thrown exception carries: [ctx.throw(status)] raises an HTTP
    error with that status; property access on [undefined]/[null],
    calling a non-function and iterating over a value that cannot be
    iterated raise a [TypeError]; setting the [length] of an array to a
    value that is no length raises a [RangeError]. *)
Inductive Error : Type :=
| TypeError
| RangeError
| HttpError (status : Z)
| UserError (msg : string).

Inductive result (A : Type) : Type :=
| Ok (a : A)
| Throw (e : Error).
Arguments Ok {A} a.
Arguments Throw {A} e.

(** The exception monad; [x ← r; k] is stdpp's notation for its bind. *)
#[export] Instance result_ret : MRet result := fun _ a => Ok a.
#[export] Instance result_bind : MBind result := fun _ _ k r =>
  match r with
  | Ok a => k a
  | Throw e => Throw e
  end.

(** The principal of a request ([interfaces.ts], [Principal]).  The three
    methods return promises of booleans; the server awaits each call, so
    a method is modelled by the boolean it resolves to.  [details] is
    opaque to the server. *)
Record Principal : Type := {
  details : option string;
  isAuthenticated : bool;
  isInRole : string -> bool;
  isResourceOwner : string -> bool
}.

(** Values.  An object lists the properties that property access finds on
    it; a function is known by its name and by its results on one string
    argument ([undefined] where the graph has no entry); a promise by the
    value it settles to.  Numbers are integers (no NaN). *)
Inductive value : Type :=
| VUndefined
| VNull
| VBool (b : bool)
| VNum (n : Z)
| VStr (s : string)
| VObj (props : list (string * value))
| VFun (name : string) (graph : list (string * value))
| VPromise (settles : value)
| VPrincipal (p : Principal).

(** [!!v] in JavaScript. *)
Definition truthy (v : value) : bool :=
  match v with
  | VUndefined | VNull => false
  | VBool b => b
  | VNum n => negb (n =? 0)%Z
  | VStr s => negb (s =? "")%string
  | VObj _ | VFun _ _ | VPromise _ | VPrincipal _ => true
  end.

(** [typeof v === 'string'] *)
Definition isString (v : value) : bool :=
  match v with VStr _ => true | _ => false end.

(** [v instanceof Promise] *)
Definition isPromise (v : value) : bool :=
  match v with VPromise _ => true | _ => false end.

Fixpoint assoc (name : string) (props : list (string * value)) : option value :=
  match props with
  | [] => None
  | (k, v) :: rest => if (k =? name)%string then Some v else assoc name rest
  end.

(** [v[name]]: a [TypeError] on [undefined] and [null], the property or
    [undefined] on an object.  The built-in properties of primitives,
    functions and promises are not modelled: they read as [undefined]. *)
Definition get_prop (v : value) (name : string) : result value :=
  match v with
  | VUndefined | VNull => Throw TypeError
  | VObj props => Ok (default VUndefined (assoc name props))
  | _ => Ok VUndefined
  end.

Fixpoint assoc_set (name : string) (x : value) (props : list (string * value))
  : list (string * value) :=
  match props with
  | [] => [(name, x)]
  | (k, v) :: rest =>
      if (k =? name)%string then (k, x) :: rest else (k, v) :: assoc_set name x rest
  end.

(** [v[name] = x] on an object; on [undefined]/[null] a [TypeError]; on
    the other values the assignment has no effect that the model sees.
    The assignment sets the one property: a setter that an object may
    have for the name, and what it would do besides, is not modelled. *)
Definition set_prop (v : value) (name : string) (x : value) : result value :=
  match v with
  | VUndefined | VNull => Throw TypeError
  | VObj props => Ok (VObj (assoc_set name x props))
  | _ => Ok v
  end.

(** [f(arg)] with one string argument. *)
Definition call (f : value) (arg : string) : result value :=
  match f with
  | VFun _ graph => Ok (default VUndefined (assoc arg graph))
  | _ => Throw TypeError
  end.

(** What [for (const x of v)] runs over: the characters of a string; a
    value that cannot be iterated raises a [TypeError].  The values of
    the model have no arrays and no objects with an iterator of their
    own. *)
Definition iterate (v : value) : result (list string) :=
  match v with
  | VStr s => Ok (map (fun c => String c "") (list_ascii_of_string s))
  | _ => Throw TypeError
  end.

(** The methods that every object finds on [Object.prototype], each with
    the number of its parameters (the [length] of the function). *)
Definition ObjectPrototype : list (string * Z) :=
  [("constructor", 1); ("hasOwnProperty", 1); ("isPrototypeOf", 1);
   ("propertyIsEnumerable", 1); ("toLocaleString", 0); ("toString", 0);
   ("valueOf", 0); ("__defineGetter__", 2); ("__defineSetter__", 2);
   ("__lookupGetter__", 1); ("__lookupSetter__", 1)]%Z.

(** The methods that an array finds on [Array.prototype] (ECMAScript
    2023), before those of [Object.prototype]. *)
Definition ArrayPrototype : list (string * Z) :=
  [("constructor", 1); ("at", 1); ("concat", 1); ("copyWithin", 2); ("entries", 0);
   ("every", 1); ("fill", 1); ("filter", 1); ("find", 1); ("findIndex", 1);
   ("findLast", 1); ("findLastIndex", 1); ("flat", 0); ("flatMap", 1);
   ("forEach", 1); ("includes", 1); ("indexOf", 1); ("join", 1); ("keys", 0);
   ("lastIndexOf", 1); ("map", 1); ("pop", 0); ("push", 1); ("reduce", 1);
   ("reduceRight", 1); ("reverse", 0); ("shift", 0); ("slice", 2); ("some", 1);
   ("sort", 1); ("splice", 2); ("toLocaleString", 0); ("toReversed", 0);
   ("toSorted", 1); ("toSpliced", 2); ("toString", 0); ("unshift", 1);
   ("values", 0); ("with", 2)]%Z.

(** [l[name]] on an array with the elements [l], from the index [i] on:
    the name of an element is its index, in decimal digits. *)
Fixpoint element {A : Type} (i : nat) (l : list A) (name : string) : option A :=
  match l with
  | [] => None
  | x :: rest =>
      if decide (NilZero.string_of_uint (Nat.to_uint i) = name) then Some x
      else element (S i) rest name
  end.

(** The method of that name in a prototype, by its [length]. *)
Fixpoint method (name : string) (prototype : list (string * Z)) : option Z :=
  match prototype with
  | [] => None
  | (k, length) :: rest => if (k =? name)%string then Some length else method name rest
  end.

End JS.

(** ** [src/utils.ts]: the path join *)

Module Utils.
Import JS.

Definition is_slash (c : ascii) : bool := (c =? "/")%char.

Definition starts_with_slash (s : string) : bool :=
  match s with
  | String c _ => is_slash c
  | EmptyString => false
  end.

(** The rest of [s] after its leading slashes: where the greedy [\/{2,}]
    stops. *)
Fixpoint skip_slashes (s : string) : string :=
  match s with
  | String c t => if is_slash c then skip_slashes t else s
  | EmptyString => s
  end.

(** [str.replace(/\/{2,}/g, '/')]: scanning from the left, a slash that
    another slash follows starts a match, the match takes the whole run
    and is replaced by one slash; any other character is copied. *)
Equations? replace_slash_runs (s : string) : string by wf (String.length s) lt :=
  replace_slash_runs EmptyString := EmptyString;
  replace_slash_runs (String c t) with is_slash c && starts_with_slash t := {
    | true := String "/" (replace_slash_runs (skip_slashes t));
    | false := String c (replace_slash_runs t) }.
Proof.
  all: simpl; try lia.
  assert (String.length (skip_slashes t) <= String.length t); [|lia].
  clear. induction t as [|d u IH]; simpl; [lia|]. destruct (is_slash d); simpl; lia.
Qed.

(** [str.replace(/\//g, '')] *)
Fixpoint remove_slashes (s : string) : string :=
  match s with
  | EmptyString => EmptyString
  | String c t => if is_slash c then remove_slashes t else String c (remove_slashes t)
  end.

Fixpoint all_slashes (s : string) : bool :=
  match s with
  | EmptyString => true
  | String c t => is_slash c && all_slashes t
  end.

(** [str.replace(/\/+$/, '')]: the leftmost position from which only
    slashes (at least one) remain up to the end is where the match starts;
    it is replaced by the empty string. *)
Fixpoint strip_trailing_slashes (s : string) : string :=
  match s with
  | EmptyString => EmptyString
  | String c t =>
      if is_slash c && all_slashes t then EmptyString
      else String c (strip_trailing_slashes t)
  end.

Definition normalize (strArray : list string) : string :=
  if (length strArray =? 0)%nat then ""
  else
    let str := String.concat "/" strArray in
    let str := replace_slash_runs str in
    if (0 <? String.length (remove_slashes str))%nat
    then strip_trailing_slashes str
    else str.

(** [args.filter(isString)] *)
Definition filter_strings (args : list value) : list string :=
  omap (fun v => match v with VStr s => Some s | _ => None end) args.

Definition pathJoin (args : list value) : string :=
  let parts := filter_strings args in
  normalize parts.

End Utils.

(** ** The path join in the words of the specification

    Section 4.6 speaks of runs of consecutive slashes and of trailing
    slashes.  These definitions say it with the maximal runs of equal
    characters of a string; [UtilsFacts] compares them with the regular
    expressions of the source. *)

Module PathJoinSpec.
Import JS Utils.

(** The segments that are joined: those that are strings, in their
    order.  A segment that is no string ([null], [undefined], a number)
    is dropped, it does not count as an empty segment. *)
Fixpoint string_segments (segments : list value) : list string :=
  match segments with
  | [] => []
  | VStr s :: rest => s :: string_segments rest
  | _ :: rest => string_segments rest
  end.

Fixpoint repeat_char (c : ascii) (n : nat) : string :=
  match n with
  | 0 => ""
  | S n => String c (repeat_char c n)
  end.

(** The maximal runs of a string, each with its character and length. *)
Fixpoint runs (s : string) : list (ascii * nat) :=
  match s with
  | "" => []
  | String c t =>
      match runs t with
      | (d, n) :: rest =>
          if (c =? d)%char then (c, S n) :: rest else (c, 1) :: (d, n) :: rest
      | [] => [(c, 1)]
      end
  end.

Fixpoint unruns (rs : list (ascii * nat)) : string :=
  match rs with
  | [] => ""
  | (c, n) :: rest => repeat_char c n +:+ unruns rest
  end.

(** A run of two or more slashes becomes one slash. *)
Definition collapse_slash_runs (s : string) : string :=
  unruns (map (fun '(c, n) => if is_slash c && (2 <=? n)%nat then (c, 1) else (c, n))
              (runs s)).

Fixpoint ends_with_slash (s : string) : bool :=
  match s with
  | "" => false
  | String c "" => is_slash c
  | String _ t => ends_with_slash t
  end.

(** What [normalize] makes of the joined string of a non-empty array:
    the string with its runs replaced, and without trailing slashes
    unless it is all slashes. *)
Definition norm (s : string) : string :=
  let str := replace_slash_runs s in
  if all_slashes str then str else strip_trailing_slashes str.

End PathJoinSpec.

(** ** [src/server.ts] *)

Module Server.
Import JS.

(** Modelled from the spec: [src/constants.ts] is not among the sources.
    The nine source kinds are those of the parameter decorators
    ([request], [response], [requestParam], [queryParam], [requestBody],
    [requestHeaders], [cookies], [next], [context]) and of the table of
    section 4.5. *)
Inductive PARAMETER_TYPE : Type :=
| REQUEST | RESPONSE | PARAMS | QUERY | BODY | HEADERS | COOKIES | NEXT | CTX.

(** *** [src/interfaces.ts] *)

Record ParameterMetadata : Type := {
  parameterName : string;
  index : nat;
  type : PARAMETER_TYPE
}.

(** What running a handler comes to: it returns a value, leaving the
    context in some state, or it throws.  The context object is shared
    and mutable in the source; here every handler receives the current
    state of the context and hands the next state on. *)
Inductive Outcome : Type :=
| Returned (v : value) (ctx : value)
| Threw (e : Error).

(** [(ctx, next) => any] *)
Definition KoaRequestHandler : Type := value -> (value -> Outcome) -> Outcome.

(** [ServiceIdentifier | KoaRequestHandler]: a lookup key of the
    container, or an inline handler. *)
Inductive Middleware : Type :=
| ServiceIdentifier (id : string)
| InlineHandler (h : KoaRequestHandler).

(** Field names carry a prefix where two interfaces share them; [target]
    is kept by the name of the class, but for the [target] of an
    [@authorize] rule, which the registry of the rules can come to read
    as an object (see [authorizeMetadataAt]): that one is kept by the
    properties that property access finds on it. *)
Record ControllerMetadata : Type := {
  c_path : string;
  c_middleware : list Middleware;
  c_target : string
}.

Record ControllerMethodMetadata : Type := {
  m_path : string;
  m_middleware : list Middleware;
  m_method : string;
  m_target : string;
  m_key : string
}.

Record AuthorizeAllMetadata : Type := {
  all_requiredRoles : list string;
  all_target : string
}.

Record AuthorizeMetadata : Type := {
  requiredRoles : list string;
  a_target : list (string * value);
  a_key : string
}.

(** A controller, seen through the five [Reflect.getOwnMetadata] reads of
    [registerControllers] on its constructor; [None] is [undefined].  The
    two registries that are indexed by the name of a method are kept by
    what the decorators have stored in them, under which name.  The
    registry of the parameter decorators is a plain object; that of the
    [@authorize] rules is the array of [getMetadataList], with the rules
    as named properties.  What a read under a name finds in them is more
    than what was stored: [parameterMetadataAt] and [authorizeMetadataAt]
    below. *)
Record Controller : Type := {
  controllerMetadata : option ControllerMetadata;
  methodMetadata : option (list ControllerMethodMetadata);
  parameterMetadata : option (gmap string (list ParameterMetadata));
  authorizeAllMetadata : option AuthorizeAllMetadata;
  authorizeMetadata : option (gmap string AuthorizeMetadata)
}.

(** What [parameterMetadata[name]] finds on the plain object of the
    parameter decorators: the bindings stored under the name, or else a
    member of its prototype chain.  The chain is [Object.prototype],
    which is found under [__proto__]; unless a parameter decorator on a
    method called [__proto__] has made the bindings of that method the
    prototype of the object (the assignment
    [metadataList["__proto__"] = parameterMetadataList] sets the prototype
    and stores no property): then the chain is that array, of which the
    read finds the length and the elements, [Array.prototype] and
    [Object.prototype].  The bindings that are the prototype are kept
    under the name [__proto__], where a read finds them. *)
Inductive ParameterList : Type :=
| Bindings (params : list ParameterMetadata)
| PrototypeMethod (name : string) (length : Z)
| ObjectPrototypeItself
| LengthOfBindings (length : nat)
| Binding (item : ParameterMetadata).

Definition parameterMetadataAt (parameterMetadata : gmap string (list ParameterMetadata))
    (name : string) : option ParameterList :=
  match parameterMetadata !! name with
  | Some params => Some (Bindings params)
  | None =>
      match parameterMetadata !! "__proto__" with
      | None =>
          if decide (name = "__proto__") then Some ObjectPrototypeItself
          else length ← method name ObjectPrototype; Some (PrototypeMethod name length)
      | Some prototype =>
          if decide (name = "length") then Some (LengthOfBindings (length prototype))
          else
            match element 0 prototype name with
            | Some item => Some (Binding item)
            | None =>
                length ← method name (ArrayPrototype ++ ObjectPrototype);
                Some (PrototypeMethod name length)
            end
      end
  end.

(** [!!paramList] for what such a read finds: all of it is truthy but
    the length [0]. *)
Definition found (paramList : ParameterList) : bool :=
  match paramList with
  | LengthOfBindings 0 => false
  | _ => true
  end.

(** What [authorizeMetadata[name]] finds on the array of the [@authorize]
    rules: the rule stored under the name, or else the [length] of the
    array, or else a member of its prototype chain.  The chain is
    [Array.prototype], then [Object.prototype], with the first of them
    under [__proto__]; unless [@authorize] on a method called [__proto__]
    has made its rule the prototype of the array (the assignment
    [metadataList["__proto__"] = metadata] sets the prototype and stores
    no property): then the chain is that rule, of which the read finds
    the three fields, and [Object.prototype].  The rule that is the
    prototype is kept under the name [__proto__], where a read finds
    it. *)
Inductive AuthorizeEntry : Type :=
| Rule (rule : AuthorizeMetadata)
| Method (name : string) (length : Z)
| ArrayPrototypeItself
| LengthOfArray
| RequiredRolesOfRule (requiredRoles : list string)
| TargetOfRule (target : list (string * value))
| KeyOfRule (key : string).

Definition authorizeMetadataAt (authorizeMetadata : gmap string AuthorizeMetadata)
    (name : string) : option AuthorizeEntry :=
  match authorizeMetadata !! name with
  | Some rule => Some (Rule rule)
  | None =>
      if decide (name = "length") then Some LengthOfArray
      else
        match authorizeMetadata !! "__proto__" with
        | None =>
            if decide (name = "__proto__") then Some ArrayPrototypeItself
            else length ← method name (ArrayPrototype ++ ObjectPrototype);
                 Some (Method name length)
        | Some prototype =>
            if decide (name = "requiredRoles")
            then Some (RequiredRolesOfRule (requiredRoles prototype))
            else if decide (name = "target") then Some (TargetOfRule (a_target prototype))
            else if decide (name = "key") then Some (KeyOfRule (a_key prototype))
            else length ← method name ObjectPrototype; Some (Method name length)
        end
  end.

(** What [authorizationHandlerFactory] is handed as [requiredRoles]: the
    roles of a rule, or what the property [requiredRoles] reads as on a
    value that is no rule (the declared type is not checked at run
    time). *)
Inductive RequiredRoles : Type :=
| Roles (roles : list string)
| NotRoles (v : value).

(** [authorizedMetadataForMethod.requiredRoles]: of the members that are
    no rules, only the target of a rule can have a property of that
    name. *)
Definition entryRequiredRoles (authorizedMetadataForMethod : AuthorizeEntry)
  : RequiredRoles :=
  match authorizedMetadataForMethod with
  | Rule rule => Roles (requiredRoles rule)
  | TargetOfRule target => NotRoles (default VUndefined (assoc "requiredRoles" target))
  | _ => NotRoles VUndefined
  end.

(** [getPrincipal(ctx)], awaited. *)
Record AuthProvider : Type := {
  getPrincipal : value -> value
}.

(** *** The collaborators: container and router *)

(** What the container holds for a middleware identifier: a plain handler
    or an instance of [BaseMiddleware], known by its [handler] method. *)
Inductive MiddlewareInstance : Type :=
| HandlerInstance (h : KoaRequestHandler)
| BaseMiddlewareInstance (handler : KoaRequestHandler).

(** A controller method: called with the extracted arguments, it sees the
    context and the continuation that the arguments refer to. *)
Definition ControllerMethod : Type :=
  list (option value) -> value -> (value -> Outcome) -> Outcome.

Record Container : Type := {
  bindings : gmap string MiddlewareInstance;
  getAll : list Controller;
  getNamed : string -> option (string -> option ControllerMethod)
}.

(** One registration [router[verb](path, ...chain)] of the router: the
    arguments of the call.  The chain is declared as handlers, but holds
    what [resolveMiddleware] returns, which can be an identifier; what
    the router does with an argument that is no function is the
    router's. *)
Record Route : Type := {
  verb : string;
  path : string;
  chain : list Middleware
}.

Record Router : Type := {
  prefix : option string;
  stack : list Route
}.

Definition Router_prefix (router : Router) (rootPath : string) : Router :=
  {| prefix := Some rootPath; stack := stack router |}.

Definition Router_register (router : Router) (method : string) (fullPath : string)
    (handlers : list Middleware) : Router :=
  {| prefix := prefix router;
     stack := stack router ++ [ {| verb := method; path := fullPath; chain := handlers |} ] |}.

(** Koa runs a list of handlers in order, each one receiving as its
    continuation the rest of the list. *)
Fixpoint compose (handlers : list KoaRequestHandler) : KoaRequestHandler :=
  fun ctx next =>
    match handlers with
    | [] => next ctx
    | h :: rest => h ctx (fun ctx' => compose rest ctx' next)
    end.

(** *** The parameter extractor *)

Definition checkQueryParam (paramType : option string) (param : value) (name : string)
  : result value :=
  if decide (paramType = Some "query") then Ok VUndefined
  else if decide (paramType = Some "cookies") then
    get ← get_prop param "get"; call get name
  else Ok param.

Definition getParam (source : value) (paramType : option string) (name : string)
  : result value :=
  param ← match paramType with
          | None => Ok source
          | Some paramType =>
              field ← get_prop source paramType;
              Ok (if truthy field then field else source)
          end;
  field ← get_prop param name;
  if truthy field then Ok field else checkQueryParam paramType param name.

(** [args[i] = v] on a JavaScript array: past the end, the array grows
    and the indices in between stay unset ([None]). *)
Definition array_set (args : list (option value)) (i : nat) (v : value)
  : list (option value) :=
  if (i <? length args)%nat then <[i := Some v]> args
  else args ++ replicate (i - length args) None ++ [Some v].

(** The [switch] of [extractParameters]: the value of one binding.  Its
    [default] branch is for values outside [PARAMETER_TYPE]. *)
Definition bindingValue (ctx next : value) (item : ParameterMetadata) : result value :=
  match type item with
  | RESPONSE => response ← get_prop ctx "response"; getParam response None (parameterName item)
  | REQUEST => request ← get_prop ctx "request"; getParam request None (parameterName item)
  | NEXT => Ok next
  | CTX => getParam ctx None (parameterName item)
  | PARAMS => getParam ctx (Some "params") (parameterName item)
  | QUERY => getParam ctx (Some "query") (parameterName item)
  | BODY => request ← get_prop ctx "request"; getParam request (Some "body") (parameterName item)
  | HEADERS => request ← get_prop ctx "request"; getParam request (Some "headers") (parameterName item)
  | COOKIES => getParam ctx (Some "cookies") (parameterName item)
  end.

(** The [for] loop of [extractParameters], from the array [args]. *)
Fixpoint fillArguments (ctx next : value) (params : list ParameterMetadata)
    (args : list (option value)) : result (list (option value)) :=
  match params with
  | [] => Ok args
  | item :: rest =>
      v ← bindingValue ctx next item;
      fillArguments ctx next rest (array_set args (index item) v)
  end.

Definition extractParameters (ctx next : value) (params : list ParameterMetadata)
  : result (list (option value)) :=
  if (length params =? 0)%nat then Ok [Some ctx; Some next]
  else
    args ← fillArguments ctx next params [];
    Ok (args ++ [Some ctx; Some next]).

(** *** The server *)

Record InversifyKoaServer : Type := {
  _router : Router;
  _container : Container;
  _routingConfig : string;
  _AuthProvider : option AuthProvider
}.

(** [ctx.state.principal] *)
Definition statePrincipal (ctx : value) : result value :=
  state ← get_prop ctx "state"; get_prop state "principal".

(** The body of the [if (ctx.state.principal)] block: the two flags
    [(isAuthenticated, isAuthorized)] it leaves.  The loop runs over
    every required role and only ever lowers [isAuthorized]. *)
Definition challenge (principal : value) (requiredRoles : list string)
  : result (bool * bool) :=
  match principal with
  | VPrincipal principal =>
      let isAuthenticated := isAuthenticated principal in
      if isAuthenticated then
        let isAuthorized :=
          fold_left (fun isAuthorized requiredRole =>
                       if negb (isInRole principal requiredRole) then false
                       else isAuthorized)
                    requiredRoles true in
        Ok (isAuthenticated, isAuthorized)
      else Ok (isAuthenticated, false)
  | _ => Throw TypeError
  end.

Definition authorizationHandlerFactory (requiredRoles : list string) : KoaRequestHandler :=
  fun ctx next =>
    match
      principal ← statePrincipal ctx;
      if truthy principal then challenge principal requiredRoles
      else Ok (false, false)
    with
    | Throw e => Threw e
    | Ok (isAuthenticated, isAuthorized) =>
        if negb isAuthenticated then Threw (HttpError 401)
        else if negb isAuthorized then Threw (HttpError 403)
        else next ctx
    end.

(** [authorizationHandlerFactory] again, for a [requiredRoles] that need
    not be an array of roles: the loop of an authenticated principal
    iterates over whatever it is, or fails. *)
Definition challenge_unchecked (principal : value) (requiredRoles : RequiredRoles)
  : result (bool * bool) :=
  match principal with
  | VPrincipal principal =>
      let isAuthenticated := isAuthenticated principal in
      if isAuthenticated then
        requiredRoles ← match requiredRoles with
                        | Roles roles => Ok roles
                        | NotRoles v => iterate v
                        end;
        let isAuthorized :=
          fold_left (fun isAuthorized requiredRole =>
                       if negb (isInRole principal requiredRole) then false
                       else isAuthorized)
                    requiredRoles true in
        Ok (isAuthenticated, isAuthorized)
      else Ok (isAuthenticated, false)
  | _ => Throw TypeError
  end.

Definition authorizationHandlerFactory_unchecked (requiredRoles : RequiredRoles)
  : KoaRequestHandler :=
  fun ctx next =>
    match
      principal ← statePrincipal ctx;
      if truthy principal then challenge_unchecked principal requiredRoles
      else Ok (false, false)
    with
    | Throw e => Threw e
    | Ok (isAuthenticated, isAuthorized) =>
        if negb isAuthenticated then Threw (HttpError 401)
        else if negb isAuthorized then Threw (HttpError 403)
        else next ctx
    end.

(** An item that the container knows is replaced by what the container
    holds for it; any other item is returned as it is
    ([middlewareItem as KoaRequestHandler]), be it an inline handler or
    an identifier, which is no function.  An inline handler is taken not
    to be bound in the container as an identifier. *)
Definition resolveMiddleware (self : InversifyKoaServer) (middleware : list Middleware)
  : list Middleware :=
  map (fun middlewareItem =>
         match middlewareItem with
         | ServiceIdentifier id =>
             match bindings (_container self) !! id with
             | Some (BaseMiddlewareInstance handler) =>
                 InlineHandler (fun ctx next => handler ctx next)
             | Some (HandlerInstance middlewareInstance) => InlineHandler middlewareInstance
             | None => middlewareItem
             end
         | InlineHandler _ => middlewareItem
         end)
      middleware.

(** The continuation, as the controller method finds it among its
    arguments. *)
Definition nextHandle : value := VFun "next" [].

(** The first two statements of the dispatcher: extract the arguments,
    look the controller up by name and call its method [key]. *)
Definition invokeController (self : InversifyKoaServer) (controllerName key : string)
    (parameterMetadata : list ParameterMetadata) : KoaRequestHandler :=
  fun ctx next =>
    match extractParameters ctx nextHandle parameterMetadata with
    | Throw e => Threw e
    | Ok args =>
        match getNamed (_container self) controllerName with
        | None => Threw (UserError "No matching bindings found")
        | Some controller =>
            match controller key with
            | None => Threw TypeError
            | Some method => method args ctx next
            end
        end
    end.

(** The dispatcher.  [ctx.body = result] is kept as the property [body]
    of the context; what the setter of a Koa context makes of the body
    besides (the status, the type and the length of the response) is
    Koa's and is not part of the model. *)
Definition handlerFactory (self : InversifyKoaServer) (controllerName key : string)
    (parameterMetadata : list ParameterMetadata) : KoaRequestHandler :=
  fun ctx next =>
    match invokeController self controllerName key parameterMetadata ctx next with
    | Threw e => Threw e
    | Returned result ctx =>
        if truthy result && isPromise result then Returned result ctx
        else if truthy result then
          match headerSent ← get_prop ctx "headerSent";
                if negb (truthy headerSent)
                then set_prop ctx "body" result
                else Ok ctx
          with
          | Throw e => Threw e
          | Ok ctx => Returned VUndefined ctx
          end
        else Returned VUndefined ctx
    end.

(** [extractParameters] again, for a [params] that need not be an array
    of bindings: a method of a prototype has a [length], and is not
    iterable; [Object.prototype], a number and a binding have no
    [length]. *)
Definition extractParameters_unchecked (ctx next : value) (params : ParameterList)
  : result (list (option value)) :=
  match params with
  | Bindings params => extractParameters ctx next params
  | PrototypeMethod _ length =>
      if negb (truthy (VNum length)) then Ok [Some ctx; Some next]
      else Throw TypeError
  | ObjectPrototypeItself | LengthOfBindings _ | Binding _ => Ok [Some ctx; Some next]
  end.

Definition invokeController_unchecked (self : InversifyKoaServer)
    (controllerName key : string) (parameterMetadata : ParameterList)
  : KoaRequestHandler :=
  fun ctx next =>
    match extractParameters_unchecked ctx nextHandle parameterMetadata with
    | Throw e => Threw e
    | Ok args =>
        match getNamed (_container self) controllerName with
        | None => Threw (UserError "No matching bindings found")
        | Some controller =>
            match controller key with
            | None => Threw TypeError
            | Some method => method args ctx next
            end
        end
    end.

(** [handlerFactory] again, for such a [parameterMetadata]. *)
Definition handlerFactory_unchecked (self : InversifyKoaServer)
    (controllerName key : string) (parameterMetadata : ParameterList)
  : KoaRequestHandler :=
  fun ctx next =>
    match invokeController_unchecked self controllerName key parameterMetadata ctx next with
    | Threw e => Threw e
    | Returned result ctx =>
        if truthy result && isPromise result then Returned result ctx
        else if truthy result then
          match headerSent ← get_prop ctx "headerSent";
                if negb (truthy headerSent)
                then set_prop ctx "body" result
                else Ok ctx
          with
          | Throw e => Threw e
          | Ok ctx => Returned VUndefined ctx
          end
        else Returned VUndefined ctx
    end.

Definition _getCurrentPrincipal (self : InversifyKoaServer) (ctx : value) : value :=
  match _AuthProvider self with
  | Some authProvider => getPrincipal authProvider ctx
  | None =>
      VPrincipal {| details := None;
                    isAuthenticated := false;
                    isInRole := fun role => false;
                    isResourceOwner := fun resourceId => false |}
  end.

(** The first middleware that [build] installs:
    [ctx.state.principal = await _self._getCurrentPrincipal(ctx); await next()]. *)
Definition principalMiddleware (self : InversifyKoaServer) : KoaRequestHandler :=
  fun ctx next =>
    match
      state ← get_prop ctx "state";
      state ← set_prop state "principal" (_getCurrentPrincipal self ctx);
      set_prop ctx "state" state
    with
    | Throw e => Threw e
    | Ok ctx =>
        match next ctx with
        | Returned _ ctx => Returned VUndefined ctx
        | Threw e => Threw e
        end
    end.

Section Registration.

(** [DEFAULT_ROUTING_ROOT_PATH] of [src/constants.ts], which is not among
    the sources. *)
Variable DEFAULT_ROUTING_ROOT_PATH : string.

(** The body of [methodMetadata.forEach], up to the call of the router:
    the arguments that it passes after the path. *)
Definition routeHandlers (self : InversifyKoaServer) (controller : Controller)
    (controllerMetadata : ControllerMetadata)
    (controllerMiddleware : list Middleware)
    (metadata : ControllerMethodMetadata) : list Middleware :=
  let paramList :=
    match parameterMetadata controller with
    | Some parameterMetadata =>
        match parameterMetadataAt parameterMetadata (m_key metadata) with
        | Some paramList => if found paramList then paramList else Bindings []
        | None => Bindings []
        end
    | None => Bindings []
    end in
  let authorizationHandler := [] in
  let authorizationHandler :=
    match authorizeAllMetadata controller with
    | Some authorizeAllMetadata =>
        let requiredRoles := Roles (all_requiredRoles authorizeAllMetadata) in
        authorizationHandler ++ [authorizationHandlerFactory_unchecked requiredRoles]
    | None => authorizationHandler
    end in
  let authorizationHandler :=
    match authorizeMetadata controller with
    | Some authorizeMetadata =>
        match authorizeMetadataAt authorizeMetadata (m_key metadata) with
        | Some authorizedMetadataForMethod =>
            let requiredRoles := entryRequiredRoles authorizedMetadataForMethod in
            authorizationHandler ++ [authorizationHandlerFactory_unchecked requiredRoles]
        | None => authorizationHandler
        end
    | None => authorizationHandler
    end in
  let handler :=
    handlerFactory_unchecked self (c_target controllerMetadata) (m_key metadata)
      paramList in
  let routeMiddleware := resolveMiddleware self (m_middleware metadata) in
  controllerMiddleware ++ routeMiddleware
    ++ map InlineHandler authorizationHandler ++ [InlineHandler handler].

(** [this._router[metadata.method](pathJoin(...), ...)] *)
Definition registerMethod (self : InversifyKoaServer) (controller : Controller)
    (controllerMetadata : ControllerMetadata)
    (controllerMiddleware : list Middleware)
    (router : Router) (metadata : ControllerMethodMetadata) : Router :=
  Router_register router (m_method metadata)
    (Utils.pathJoin [VStr (c_path controllerMetadata); VStr (m_path metadata)])
    (routeHandlers self controller controllerMetadata controllerMiddleware metadata).

(** The body of [controllers.forEach]. *)
Definition registerController (self : InversifyKoaServer) (router : Router)
    (controller : Controller) : Router :=
  match controllerMetadata controller, methodMetadata controller with
  | Some controllerMetadata, Some methodMetadata =>
      let controllerMiddleware :=
        resolveMiddleware self (c_middleware controllerMetadata) in
      fold_left (registerMethod self controller controllerMetadata controllerMiddleware)
                methodMetadata router
  | _, _ => router
  end.

(** [registerControllers], up to the router it leaves ([app.use] of its
    routes follows). *)
Definition registerControllers (self : InversifyKoaServer) : Router :=
  let router :=
    if decide (_routingConfig self <> DEFAULT_ROUTING_ROOT_PATH)
    then Router_prefix (_router self) (_routingConfig self)
    else _router self in
  let controllers := getAll (_container self) in
  fold_left (registerController self) controllers router.

End Registration.

(** The handlers that a request goes through when the router matches it
    to a route whose chain holds functions only, in order: the principal
    middleware that [build] installs first, the server-level middleware
    of the configuration function, then the handlers registered for the
    route. *)
Definition requestPipeline (self : InversifyKoaServer)
    (serverMiddleware routeChain : list KoaRequestHandler) : KoaRequestHandler :=
  compose (principalMiddleware self :: serverMiddleware ++ routeChain).

End Server.

(** ** Notions that the properties are stated with *)

Module ServerSpec.
Import JS Server.

Definition is_object (v : value) : bool :=
  match v with VObj _ => true | _ => false end.

Definition is_function (v : value) : bool :=
  match v with VFun _ _ => true | _ => false end.

(** What Koa gives every handler: a context object with its request and
    response objects and a cookie jar that has a [get] method. *)
Definition koa_context (ctx : value) : bool :=
  match ctx with
  | VObj props =>
      is_object (default VUndefined (assoc "request" props))
      && is_object (default VUndefined (assoc "response" props))
      && match assoc "cookies" props with
         | Some (VObj jar) => is_function (default VUndefined (assoc "get" jar))
         | _ => false
         end
  | _ => false
  end.

(** The source object of a kind of binding, after the table of section
    4.5: the request, the response or the context itself, or the map of
    route parameters, of query parameters, the parsed body, the headers,
    the cookie jar.  The continuation has no source object. *)
Definition sourceObject (ctx : value) (kind : PARAMETER_TYPE) : result value :=
  match kind with
  | REQUEST => get_prop ctx "request"
  | RESPONSE => get_prop ctx "response"
  | CTX => Ok ctx
  | PARAMS => get_prop ctx "params"
  | QUERY => get_prop ctx "query"
  | BODY => request ← get_prop ctx "request"; get_prop request "body"
  | HEADERS => request ← get_prop ctx "request"; get_prop request "headers"
  | COOKIES => get_prop ctx "cookies"
  | NEXT => Throw TypeError
  end.

(** What a binding yields when its source object has no usable field of
    the name. *)
Definition fallback (kind : PARAMETER_TYPE) (source : value) (name : string)
  : result value :=
  match kind with
  | QUERY => Ok VUndefined
  | COOKIES => get ← get_prop source "get"; call get name
  | _ => Ok source
  end.

(** The context once the first middleware of [build] has stored the
    principal of the request in its state. *)
Definition withPrincipal (self : InversifyKoaServer) (ctx : value) : result value :=
  state ← get_prop ctx "state";
  state ← set_prop state "principal" (_getCurrentPrincipal self ctx);
  set_prop ctx "state" state.

(** Handlers in a row that pass a request on, from the context [ctx] to
    the context [ctx'] on which what follows them runs.  Each of them
    calls its continuation, on a context with the principal it found,
    and makes of the outcome of the continuation what it will, but lets
    a failure through: that is [(ctx, next) => next()] as well as
    [async (ctx, next) => { ...; await next(); ... }]. *)
Inductive forwards : list KoaRequestHandler -> value -> value -> Prop :=
| forwards_nil ctx : forwards [] ctx ctx
| forwards_cons h rest ctx ctx1 ctx2 (after : Outcome -> Outcome) :
    (forall next, h ctx next = after (next ctx1)) ->
    (forall e, after (Threw e) = Threw e) ->
    statePrincipal ctx1 = statePrincipal ctx ->
    forwards rest ctx1 ctx2 ->
    forwards (h :: rest) ctx ctx2.

(** The handlers of a chain, when all that it holds are functions. *)
Fixpoint functions (chain : list Middleware) : option (list KoaRequestHandler) :=
  match chain with
  | [] => Some []
  | InlineHandler h :: rest => handlers ← functions rest; Some (h :: handlers)
  | ServiceIdentifier _ :: _ => None
  end.

(** The route carries an authorization rule: one for the whole class, or
    one for this method. *)
Definition hasAuthorizationRule (controller : Controller)
    (metadata : ControllerMethodMetadata) : Prop :=
  is_Some (authorizeAllMetadata controller)
  \/ exists rules, authorizeMetadata controller = Some rules
                   /\ is_Some (rules !! m_key metadata).

(** The chain of section 3 for a method of a controller: the resolved
    controller-level middleware, the resolved method-level middleware,
    the authorization handlers (that of the class-wide rule, then that of
    the rule that [@authorize] has declared for this method) and the
    dispatcher, with the bindings that the parameter decorators have
    declared for this method. *)
Definition specifiedChain (self : InversifyKoaServer) (controller : Controller)
    (cm : ControllerMetadata) (metadata : ControllerMethodMetadata) : list Middleware :=
  resolveMiddleware self (c_middleware cm)
  ++ resolveMiddleware self (m_middleware metadata)
  ++ map InlineHandler
       (match authorizeAllMetadata controller with
        | Some rule => [authorizationHandlerFactory (all_requiredRoles rule)]
        | None => []
        end
        ++ match authorizeMetadata controller with
           | Some rules =>
               match rules !! m_key metadata with
               | Some rule => [authorizationHandlerFactory (requiredRoles rule)]
               | None => []
               end
           | None => []
           end)
  ++ [InlineHandler
        (handlerFactory self (c_target cm) (m_key metadata)
           (match parameterMetadata controller with
            | Some bindings => default [] (bindings !! m_key metadata)
            | None => []
            end))].

(** The name [key] finds, in the registry of the [@authorize] rules of
    the controller, a rule or nothing: no member that the registry
    inherits. *)
Definition plainRule (controller : Controller) (key : string) : bool :=
  match authorizeMetadata controller with
  | Some rules =>
      match authorizeMetadataAt rules key with
      | Some (Rule _) | None => true
      | Some _ => false
      end
  | None => true
  end.

(** The same for the registry of the parameter decorators. *)
Definition plainBindings (controller : Controller) (key : string) : bool :=
  match parameterMetadata controller with
  | Some bindings =>
      match parameterMetadataAt bindings key with
      | Some (Bindings _) | None => true
      | Some _ => false
      end
  | None => true
  end.

(** [parameterMetadata[key] || []], or [[]] without a registry. *)
Definition paramListOf (controller : Controller) (key : string) : ParameterList :=
  match parameterMetadata controller with
  | Some bindings =>
      match parameterMetadataAt bindings key with
      | Some paramList => if found paramList then paramList else Bindings []
      | None => Bindings []
      end
  | None => Bindings []
  end.

(** The authorization handlers that registration builds for a method:
    one for the class-wide rule, and one for what the name of the method
    finds in the registry of the [@authorize] rules. *)
Definition gates (controller : Controller) (key : string) : list KoaRequestHandler :=
  match authorizeAllMetadata controller with
  | Some rule => [authorizationHandlerFactory_unchecked (Roles (all_requiredRoles rule))]
  | None => []
  end
  ++ match authorizeMetadata controller with
     | Some rules =>
         match authorizeMetadataAt rules key with
         | Some entry => [authorizationHandlerFactory_unchecked (entryRequiredRoles entry)]
         | None => []
         end
     | None => []
     end.

(** The dispatcher that registration builds for a method, with what the
    name of the method finds in the registry of the parameter
    decorators. *)
Definition dispatcher (self : InversifyKoaServer) (controller : Controller)
    (cm : ControllerMetadata) (key : string) : KoaRequestHandler :=
  handlerFactory_unchecked self (c_target cm) key (paramListOf controller key).

(** The route that registration makes of a method of a controller: the
    verb, the joined path, and the chain that [routeHandlers] gives. *)
Definition expectedRoute (self : InversifyKoaServer) (controller : Controller)
    (cm : ControllerMetadata) (metadata : ControllerMethodMetadata) : Route :=
  {| verb := m_method metadata;
     path := Utils.pathJoin [VStr (c_path cm); VStr (m_path metadata)];
     chain :=
       routeHandlers self controller cm (resolveMiddleware self (c_middleware cm))
         metadata |}.

(** The routes of a controller, one for each of its methods, in the
    order of their declaration; none without controller metadata or
    without method metadata. *)
Definition expectedRoutes (self : InversifyKoaServer) (controller : Controller)
  : list Route :=
  match controllerMetadata controller, methodMetadata controller with
  | Some cm, Some methods => map (expectedRoute self controller cm) methods
  | _, _ => []
  end.

(** [args[i]] of an argument array: [None] where the index is unset or
    past the end. *)
Definition slot (args : list (option value)) (i : nat) : option value :=
  default None (args !! i).

End ServerSpec.

(** ** A request to try things on *)

Module Sample.
Import JS Server.

Definition jar : value :=
  VObj [("secure", VBool false); ("get", VFun "get" [("sid", VStr "abc")])].

Definition request : value :=
  VObj [("url", VStr "/api/test?test=testquery");
        ("headers", VObj [("testhead", VStr "foo"); ("x-empty", VStr "")]);
        ("body", VObj [("foo", VStr "bar"); ("count", VNum 0)])].

Definition response : value := VObj [("status", VNum 404)].

Definition ctx : value :=
  VObj [("request", request);
        ("response", response);
        ("params", VObj [("id", VStr "5")]);
        ("query", VObj [("test", VStr "testquery")]);
        ("cookies", jar);
        ("state", VObj []);
        ("headerSent", VBool false)].

(** [get(@queryParam("empty") empty, @context() c, @next() n)] *)
Definition params : list ParameterMetadata :=
  [ {| parameterName := "empty"; index := 0; type := QUERY |};
    {| parameterName := "default"; index := 1; type := CTX |};
    {| parameterName := "default"; index := 2; type := NEXT |} ].

(** A principal in the role [admin] only. *)
Definition admin : Principal :=
  {| details := Some "alice";
     isAuthenticated := true;
     isInRole := fun role => (role =? "admin")%string;
     isResourceOwner := fun resourceId => false |}.

(** A principal that is not authenticated. *)
Definition anonymous : Principal :=
  {| details := None;
     isAuthenticated := false;
     isInRole := fun role => true;
     isResourceOwner := fun resourceId => false |}.

(** [ctx] once its state holds [principal]. *)
Definition ctxOf (principal : value) : value :=
  VObj [("request", request);
        ("response", response);
        ("params", VObj [("id", VStr "5")]);
        ("query", VObj [("test", VStr "testquery")]);
        ("cookies", jar);
        ("state", VObj [("principal", principal)]);
        ("headerSent", VBool false)].

(** [ctx] once the response is on its way. *)
Definition ctxSent : value :=
  VObj [("request", request); ("response", response); ("cookies", jar);
        ("state", VObj []); ("headerSent", VBool true)].

(** [(ctx, nextFunc) => nextFunc()] *)
Definition spy : KoaRequestHandler := fun ctx next => next ctx.



(** The end of the pipeline. *)
Definition done : value -> Outcome := fun ctx => Returned VUndefined ctx.

Definition TestController (key : string) : option ControllerMethod :=
  if decide (key = "getTest") then
    Some (fun args ctx next => Returned (VObj [("hello", VStr "world")]) ctx)
  else if decide (key = "getCount") then
    Some (fun args ctx next => Returned (VNum 0) ctx)
  else if decide (key = "getLater") then
    Some (fun args ctx next => Returned (VPromise (VStr "later")) ctx)
  else None.

(** The prototype of the class, as the decorators of its methods
    receive it. *)
Definition prototype : list (string * value) :=
  [("getTest", VFun "getTest" []); ("getCount", VFun "getCount" []);
   ("getLater", VFun "getLater" [])].

(** [async (ctx, next) => { await next(); }] *)
Definition awaitNext : KoaRequestHandler :=
  fun ctx next =>
    match next ctx with
    | Returned _ ctx => Returned VUndefined ctx
    | Threw e => Threw e
    end.

Definition getTest : ControllerMethodMetadata :=
  {| m_path := "/"; m_middleware := [ServiceIdentifier "spyC"];
     m_method := "get"; m_target := "TestController"; m_key := "getTest" |}.

(** [@controller("/", spy) @authorizeAll("admin") class TestController]
    with [@httpGet("/", spyC) @authorize("editor") getTest()]. *)
Definition controller (controllerMiddleware : list Middleware) : Controller :=
  {| controllerMetadata :=
       Some {| c_path := "/"; c_middleware := controllerMiddleware;
               c_target := "TestController" |};
     methodMetadata := Some [getTest];
     parameterMetadata := None;
     authorizeAllMetadata :=
       Some {| all_requiredRoles := ["admin"]; all_target := "TestController" |};
     authorizeMetadata :=
       Some {[ "getTest" := {| requiredRoles := ["editor"];
                               a_target := prototype; a_key := "getTest" |} ]} |}.

Definition server (controllerMiddleware : list Middleware) : InversifyKoaServer :=
  {| _router := {| prefix := None; stack := [] |};
     _container :=
       {| bindings := {[ "spyC" := BaseMiddlewareInstance spy ]};
          getAll := [controller controllerMiddleware];
          getNamed := fun name =>
            if decide (name = "TestController") then Some TestController else None |};
     _routingConfig := "/";
     _AuthProvider := None |}.

End Sample.

(** ** [src/decorators.ts] *)

Module Decorators.
Import JS Server.

(** The metadata of a class that nothing has decorated yet. *)
Definition undecorated : Controller :=
  {| controllerMetadata := None;
     methodMetadata := None;
     parameterMetadata := None;
     authorizeAllMetadata := None;
     authorizeMetadata := None |}.

(** A decorator is applied to a class (class decorators) or to the
    prototype of a class and a method name (method and parameter
    decorators); either way it writes to the metadata of the class.  Here
    it takes the name of the class as [target] ([authorize] the
    prototype, by its properties) and the metadata of the class, and
    returns the metadata that it leaves. *)
Definition controller (path : string) (middleware : list Middleware)
    (target : string) (cls : Controller) : Controller :=
  let metadata := {| c_path := path; c_middleware := middleware; c_target := target |} in
  {| controllerMetadata := Some metadata;
     methodMetadata := methodMetadata cls;
     parameterMetadata := parameterMetadata cls;
     authorizeAllMetadata := authorizeAllMetadata cls;
     authorizeMetadata := authorizeMetadata cls |}.

(** [getMetadataList]: the list stored under the key, which is the empty
    list that it stores when there is none.  The caller changes the list
    in place; here the caller writes the changed list back. *)
Definition getMetadataList {T : Type} (stored : option (list T)) : list T :=
  match stored with
  | None => []
  | Some metadataList => metadataList
  end.

Definition httpMethod (method path : string) (middleware : list Middleware)
    (target key : string) (cls : Controller) : Controller :=
  let metadata :=
    {| m_path := path; m_middleware := middleware; m_method := method;
       m_target := target; m_key := key |} in
  let metadataList := getMetadataList (methodMetadata cls) in
  {| controllerMetadata := controllerMetadata cls;
     methodMetadata := Some (metadataList ++ [metadata]);
     parameterMetadata := parameterMetadata cls;
     authorizeAllMetadata := authorizeAllMetadata cls;
     authorizeMetadata := authorizeMetadata cls |}.

Definition all := httpMethod "all".
Definition httpGet := httpMethod "get".
Definition httpPost := httpMethod "post".
Definition httpPut := httpMethod "put".
Definition httpPatch := httpMethod "patch".
Definition httpHead := httpMethod "head".
Definition httpDelete := httpMethod "delete".

Definition authorizeAll (requiredRoles : list string) (target : string)
    (cls : Controller) : Controller :=
  let metadata := {| all_requiredRoles := requiredRoles; all_target := target |} in
  {| controllerMetadata := controllerMetadata cls;
     methodMetadata := methodMetadata cls;
     parameterMetadata := parameterMetadata cls;
     authorizeAllMetadata := Some metadata;
     authorizeMetadata := authorizeMetadata cls |}.

(** [metadataList[key] = metadata] on the array of [getMetadataList]:
    the assignment stores the rule as a property of that name, or, for
    the name [__proto__], as the prototype of the array (where
    [authorizeMetadataAt] expects it); for the name [length] it is an
    assignment to the length of the array, which fails, the rule being no
    number. *)
Definition authorize (requiredRoles : list string) (target : list (string * value))
    (key : string) (cls : Controller) : result Controller :=
  let metadata := {| requiredRoles := requiredRoles; a_target := target; a_key := key |} in
  let metadataList : gmap string AuthorizeMetadata :=
    match authorizeMetadata cls with
    | None => ∅
    | Some metadataList => metadataList
    end in
  if decide (key = "length") then Throw RangeError
  else
    Ok {| controllerMetadata := controllerMetadata cls;
          methodMetadata := methodMetadata cls;
          parameterMetadata := parameterMetadata cls;
          authorizeAllMetadata := authorizeAllMetadata cls;
          authorizeMetadata := Some (<[key := metadata]> metadataList) |}.

(** [metadataList[methodName] = parameterMetadataList] stores the
    bindings as a property of that name, or, for the name [__proto__], as
    the prototype of the object (where [parameterMetadataAt] expects
    them); the prototype is no property of the object for
    [hasOwnProperty], so that for this name the bindings start from the
    empty list every time. *)
Definition params (type : PARAMETER_TYPE) (parameterName : string)
    (target methodName : string) (index : nat) (cls : Controller) : Controller :=
  let parameterMetadata :=
    {| parameterName := parameterName; index := index; type := type |} in
  let metadataList : gmap string (list ParameterMetadata) :=
    match Server.parameterMetadata cls with
    | None => <[methodName := [parameterMetadata]]> ∅
    | Some metadataList =>
        let parameterMetadataList :=
          if decide (methodName = "__proto__") then []
          else
            match metadataList !! methodName with
            | Some parameterMetadataList => parameterMetadataList
            | None => []
            end in
        <[methodName := parameterMetadata :: parameterMetadataList]> metadataList
    end in
  {| controllerMetadata := controllerMetadata cls;
     methodMetadata := methodMetadata cls;
     parameterMetadata := Some metadataList;
     authorizeAllMetadata := authorizeAllMetadata cls;
     authorizeMetadata := authorizeMetadata cls |}.

(** [name = name || "default"]: no name and the empty name are falsy. *)
Definition paramDecoratorFactory (parameterType : PARAMETER_TYPE) (name : option string)
  : string -> string -> nat -> Controller -> Controller :=
  let name :=
    match name with
    | Some name => if (name =? "")%string then "default" else name
    | None => "default"
    end in
  params parameterType name.

Definition request := paramDecoratorFactory REQUEST.
Definition response := paramDecoratorFactory RESPONSE.
Definition requestParam := paramDecoratorFactory PARAMS.
Definition queryParam := paramDecoratorFactory QUERY.
Definition requestBody := paramDecoratorFactory BODY.
Definition requestHeaders := paramDecoratorFactory HEADERS.
Definition cookies := paramDecoratorFactory COOKIES.
Definition next := paramDecoratorFactory NEXT.
Definition context := paramDecoratorFactory CTX.

End Decorators.

(** ** [src/server.ts]: the constructor, the two setters and [build] *)

Module Facade.
Import JS Server.

(** The Koa application, by the middleware given to [app.use], in that
    order. *)
Definition Koa : Type := list KoaRequestHandler.

(** [(app: Koa) => void]: what the function makes of the application. *)
Definition ConfigFunction : Type := Koa -> Koa.

(** The fields of the class that [InversifyKoaServer] above leaves out.
    The constructor also binds the auth provider in the container, from
    which [_getCurrentPrincipal] takes it back; [_AuthProvider] stands
    for both. *)
Record Facade : Type := {
  server : InversifyKoaServer;
  _app : Koa;
  _configFn : ConfigFunction;
  _errorConfigFn : ConfigFunction
}.

Section Build.

(** [DEFAULT_ROUTING_ROOT_PATH] of [src/constants.ts] and [router.routes()]
    of the router, which are not among the sources. *)
Variable DEFAULT_ROUTING_ROOT_PATH : string.
Variable routes : Router -> KoaRequestHandler.

(** [new Router()] *)
Definition newRouter : Router := {| prefix := None; stack := [] |}.

Definition constructor (container : Container) (customRouter : option Router)
    (routingConfig : option string) (customApp : option Koa)
    (authProvider : option AuthProvider) : Facade :=
  {| server :=
       {| _router := match customRouter with Some r => r | None => newRouter end;
          _container := container;
          _routingConfig :=
            match routingConfig with
            | Some rootPath => rootPath
            | None => DEFAULT_ROUTING_ROOT_PATH
            end;
          _AuthProvider := authProvider |};
     _app := match customApp with Some app => app | None => [] end;
     _configFn := fun app => app;
     _errorConfigFn := fun app => app |}.

Definition setConfig (fn : ConfigFunction) (self : Facade) : Facade :=
  {| server := server self; _app := _app self;
     _configFn := fn; _errorConfigFn := _errorConfigFn self |}.

Definition setErrorConfig (fn : ConfigFunction) (self : Facade) : Facade :=
  {| server := server self; _app := _app self;
     _configFn := _configFn self; _errorConfigFn := fn |}.

(** [build]: the server it leaves; the application it returns is the
    [_app] of that server.  The router and the application are changed
    in place. *)
Definition build (self : Facade) : Facade :=
  let app := _app self ++ [principalMiddleware (server self)] in
  let app := _configFn self app in
  let router := registerControllers DEFAULT_ROUTING_ROOT_PATH (server self) in
  let app := app ++ [routes router] in
  let app := _errorConfigFn self app in
  {| server :=
       {| _router := router;
          _container := _container (server self);
          _routingConfig := _routingConfig (server self);
          _AuthProvider := _AuthProvider (server self) |};
     _app := app;
     _configFn := _configFn self;
     _errorConfigFn := _errorConfigFn self |}.

(** [(app) => { app.use(m1); ...; app.use(mn); }] *)
Definition uses (middleware : list KoaRequestHandler) : ConfigFunction :=
  fun app => app ++ middleware.

End Build.

End Facade.

(** ** Further notions for the properties of the code *)

Module ExtraSpec.
Import JS Utils PathJoinSpec Server ServerSpec.

(** No slash is followed by another slash. *)
Fixpoint no_double_slash (s : string) : bool :=
  match s with
  | "" => true
  | String c t => negb (is_slash c && starts_with_slash t) && no_double_slash t
  end.

(** A path as the join leaves it: no two slashes in a row and no slash
    at the end, but for the path ["/"] itself. *)
Definition normal_path (s : string) : bool :=
  no_double_slash s && (negb (ends_with_slash s) || (s =? "/")%string).

(** One more than the highest index that a binding of the list names;
    0 for the empty list. *)
Definition argumentsLength (params : list ParameterMetadata) : nat :=
  foldr (fun item n => S (index item) `max` n) 0 params.

(** The object in which the source object of a kind is looked up: the
    request for the body and the headers, the context for the route
    parameters, the query parameters and the cookie jar. *)
Definition enclosingObject (ctx : value) (kind : PARAMETER_TYPE) : result value :=
  match kind with
  | BODY | HEADERS => get_prop ctx "request"
  | PARAMS | QUERY | COOKIES => Ok ctx
  | _ => Throw TypeError
  end.

(** The name under which a parameter decorator registers a binding. *)
Definition bindingName (name : option string) : string :=
  match name with
  | Some "" | None => "default"
  | Some name => name
  end.

(** The parameter decorators of one method, as the compiled class
    applies them: from the last parameter to the first, each with the
    position of its parameter ([first] is the position of the first of
    [decorators]). *)
Fixpoint decorateParameters
    (decorators : list (string -> string -> nat -> Controller -> Controller))
    (target methodName : string) (first : nat) (cls : Controller) : Controller :=
  match decorators with
  | [] => cls
  | decorator :: rest =>
      decorator target methodName first
        (decorateParameters rest target methodName (S first) cls)
  end.

(** The bindings of a method whose parameters, from position [first]
    on, carry the parameter decorators of the given kinds and names. *)
Fixpoint declaredBindings (first : nat) (bindings : list (PARAMETER_TYPE * option string))
  : list ParameterMetadata :=
  match bindings with
  | [] => []
  | (parameterType, name) :: rest =>
      {| parameterName := bindingName name; index := first; type := parameterType |}
        :: declaredBindings (S first) rest
  end.

(** The bindings of a method, [[]] when there are none on record. *)
Definition bindingsOf (cls : Controller) (methodName : string) : list ParameterMetadata :=
  default [] (default ∅ (parameterMetadata cls) !! methodName).

(** The role lists of the authorization handlers of a route: that of
    the class-wide rule, then that of the rule of the method. *)
Definition ruleRoles (controller : Controller) (metadata : ControllerMethodMetadata)
  : list (list string) :=
  match authorizeAllMetadata controller with
  | Some rule => [all_requiredRoles rule]
  | None => []
  end
  ++ match authorizeMetadata controller with
     | Some rules =>
         match rules !! m_key metadata with
         | Some rule => [requiredRoles rule]
         | None => []
         end
     | None => []
     end.

(** The names under which an array finds something that nobody has
    stored in it. *)
Definition arrayMember (name : string) : bool :=
  bool_decide (name = "length") || bool_decide (name = "__proto__")
  || bool_decide (is_Some (method name (ArrayPrototype ++ ObjectPrototype))).

(** No method called [__proto__] of the class carries an [@authorize]
    rule or a parameter decorator: the two registries have the
    prototypes they were created with. *)
Definition prototypesKept (controller : Controller) : bool :=
  bool_decide (default ∅ (authorizeMetadata controller) !! "__proto__" = None)
  && bool_decide (default ∅ (parameterMetadata controller) !! "__proto__" = None).

(** The method decorator that declares a route with the given entries. *)
Definition declareRoute (d : ControllerMethodMetadata) : Controller -> Controller :=
  Decorators.httpMethod (m_method d) (m_path d) (m_middleware d) (m_target d) (m_key d).

(** How many routes a controller stands for. *)
Definition routeCount (controller : Controller) : nat :=
  match controllerMetadata controller, methodMetadata controller with
  | Some _, Some methods => length methods
  | _, _ => 0
  end.

End ExtraSpec.

(** ** More requests to try things on *)

Module ExtraSample.
Import JS Server.

(** A context whose request has no parsed body (no body parser is
    installed). *)
Definition ctxNoBody : value :=
  VObj [("request", VObj [("url", VStr "/"); ("headers", VObj [])]);
        ("response", Sample.response);
        ("cookies", Sample.jar);
        ("state", VObj [])].

(** The class of the test "should protect the method which is annotated
    with @authorize but not the method in the same controller without
    @authorize", with [find] as the name of its second method:
    [@controller("/") class TestController {
       @httpGet(":id") @authorize() getTest(@requestParam("id") id, ctx) {...}
       @httpGet("") find(ctx) { return "response"; } }]. *)
Definition FindController : result Controller :=
  let cls :=
    Decorators.requestParam (Some "id") "TestController" "getTest" 0
      Decorators.undecorated in
  cls ← Decorators.authorize [] Sample.prototype "getTest" cls;
  let cls := Decorators.httpGet ":id" [] "TestController" "getTest" cls in
  let cls := Decorators.httpGet "" [] "TestController" "find" cls in
  Ok (Decorators.controller "/" [] "TestController" cls).

Definition find : ControllerMethodMetadata :=
  {| m_path := ""; m_middleware := []; m_method := "get";
     m_target := "TestController"; m_key := "find" |}.

(** The methods of that class. *)
Definition FindInstance (key : string) : option ControllerMethod :=
  if decide (key = "getTest") then
    Some (fun args ctx next => Returned (default VUndefined (default None (args !! 0))) ctx)
  else if decide (key = "find") then
    Some (fun args ctx next => Returned (VStr "response") ctx)
  else None.

(** A server for one class, with an auth provider that knows every
    request as the given principal. *)
Definition serverOf (cls : Controller) (principal : Principal) : InversifyKoaServer :=
  {| _router := {| prefix := None; stack := [] |};
     _container :=
       {| bindings := ∅;
          getAll := [cls];
          getNamed := fun name =>
            if decide (name = "TestController") then Some FindInstance else None |};
     _routingConfig := "/";
     _AuthProvider := Some {| getPrincipal := fun ctx => VPrincipal principal |} |}.

(** The sample server with an auth provider that knows every request as
    the administrator. *)
Definition secured : InversifyKoaServer :=
  {| _router := _router (Sample.server [InlineHandler Sample.spy]);
     _container := _container (Sample.server [InlineHandler Sample.spy]);
     _routingConfig := "/";
     _AuthProvider := Some {| getPrincipal := fun ctx => VPrincipal Sample.admin |} |}.

End ExtraSample.

(** * Properties *)

(** ** Objects *)

Module JSFacts.
Import JS.

Lemma assoc_set_same name x props : assoc name (assoc_set name x props) = Some x.
Proof.
  induction props as [|[k v] rest IH]; simpl.
  - by rewrite String.eqb_refl.
  - destruct (k =? name)%string eqn:E; simpl; rewrite E; auto.
Qed.

Lemma assoc_set_other name name' x props :
  name <> name' -> assoc name' (assoc_set name x props) = assoc name' props.
Proof.
  intros Hne. induction props as [|[k v] rest IH]; simpl.
  - destruct (String.eqb_spec name name'); [done | reflexivity].
  - destruct (String.eqb_spec k name) as [->|Hk]; simpl.
    + destruct (String.eqb_spec name name'); [done | reflexivity].
    + destruct (k =? name')%string; auto.
Qed.

End JSFacts.

(** ** The path join *)

Module UtilsFacts.
Import JS Utils PathJoinSpec.

Lemma is_slash_true c : is_slash c = true -> c = "/"%char.
Proof. unfold is_slash. by intros ?%Ascii.eqb_eq. Qed.

Lemma skip_slashes_id s : starts_with_slash s = false -> skip_slashes s = s.
Proof. destruct s as [|c t]; simpl; [done|]. by intros ->. Qed.

(** The scan of [replace_slash_runs], one character at a time: a slash
    that another slash follows is dropped. *)
Lemma replace_slash_runs_cons c t :
  replace_slash_runs (String c t) =
  if is_slash c && starts_with_slash t then replace_slash_runs t
  else String c (replace_slash_runs t).
Proof.
  simp replace_slash_runs.
  destruct (is_slash c && starts_with_slash t) eqn:E; simpl; [|reflexivity].
  apply andb_prop in E as [Hc Ht].
  destruct t as [|d u]; [discriminate|]. simpl in Ht.
  apply is_slash_true in Hc, Ht. subst c d.
  simp replace_slash_runs. simpl.
  destruct (starts_with_slash u) eqn:Hu; simpl; [reflexivity|].
  by rewrite skip_slashes_id.
Qed.

Lemma replace_slash_runs_nil : replace_slash_runs "" = "".
Proof. by simp replace_slash_runs. Qed.

Lemma string_app_nil_l (y : string) : "" +:+ y = y.
Proof. reflexivity. Qed.

Lemma string_app_cons c (x y : string) : String c x +:+ y = String c (x +:+ y).
Proof. reflexivity. Qed.

Lemma string_app_nil_r (s : string) : s +:+ "" = s.
Proof. induction s as [|c t IH]; [done|]. by rewrite string_app_cons, IH. Qed.

Lemma string_app_assoc (x y z : string) : (x +:+ y) +:+ z = x +:+ y +:+ z.
Proof. induction x as [|c t IH]; [done|]. by rewrite !string_app_cons, IH. Qed.

Lemma starts_with_slash_app x y :
  starts_with_slash (x +:+ y) =
  match x with "" => starts_with_slash y | _ => starts_with_slash x end.
Proof. by destruct x. Qed.

Lemma starts_replace_slash_runs s :
  starts_with_slash (replace_slash_runs s) = starts_with_slash s.
Proof.
  induction s as [|c t IH]; [by rewrite replace_slash_runs_nil|].
  rewrite replace_slash_runs_cons.
  destruct (is_slash c && starts_with_slash t) eqn:E; [|reflexivity].
  apply andb_prop in E as [Hc Ht]. rewrite IH, Ht. simpl. by rewrite Hc.
Qed.

Lemma replace_slash_runs_empty s : replace_slash_runs s = "" -> s = "".
Proof.
  induction s as [|c t IH]; [done|].
  rewrite replace_slash_runs_cons.
  destruct (is_slash c && starts_with_slash t) eqn:E; [|done].
  apply andb_prop in E as [_ Ht]. intros H%IH. by subst t.
Qed.

(** Replacing the runs of a prefix, or of a suffix, first changes nothing. *)
Lemma replace_slash_runs_app_l x y :
  replace_slash_runs (replace_slash_runs x +:+ y) = replace_slash_runs (x +:+ y).
Proof.
  induction x as [|c t IH]; [by rewrite replace_slash_runs_nil|].
  rewrite replace_slash_runs_cons, string_app_cons.
  rewrite (replace_slash_runs_cons c (t +:+ y)).
  destruct (is_slash c) eqn:Hc; cbn [andb];
    [|by rewrite string_app_cons, replace_slash_runs_cons, Hc, IH].
  destruct (starts_with_slash t) eqn:Ht.
  - rewrite IH, starts_with_slash_app. destruct t; [done|]. by rewrite Ht.
  - rewrite string_app_cons, replace_slash_runs_cons, Hc, IH. cbn [andb].
    rewrite !starts_with_slash_app.
    destruct t as [|d u]; [by rewrite replace_slash_runs_nil|].
    destruct (replace_slash_runs (String d u)) eqn:E.
    + by apply replace_slash_runs_empty in E.
    + rewrite <- E, starts_replace_slash_runs. reflexivity.
Qed.

Lemma replace_slash_runs_idem s :
  replace_slash_runs (replace_slash_runs s) = replace_slash_runs s.
Proof.
  pose proof (replace_slash_runs_app_l s "") as H. by rewrite !string_app_nil_r in H.
Qed.

Lemma replace_slash_runs_app_r x y :
  replace_slash_runs (x +:+ replace_slash_runs y) = replace_slash_runs (x +:+ y).
Proof.
  induction x as [|c t IH]; [apply replace_slash_runs_idem|].
  rewrite !string_app_cons, !replace_slash_runs_cons, IH.
  rewrite !starts_with_slash_app.
  destruct t; [by rewrite starts_replace_slash_runs | reflexivity].
Qed.

Lemma all_slashes_app x y : all_slashes (x +:+ y) = all_slashes x && all_slashes y.
Proof.
  induction x as [|c t IH]; [done|].
  rewrite string_app_cons. simpl. by rewrite IH, andb_assoc.
Qed.

Lemma all_slashes_starts c t : all_slashes (String c t) = true -> is_slash c = true.
Proof. simpl. by intros [? _]%andb_prop. Qed.

Lemma all_slashes_replace s : all_slashes (replace_slash_runs s) = all_slashes s.
Proof.
  induction s as [|c t IH]; [by rewrite replace_slash_runs_nil|].
  rewrite replace_slash_runs_cons.
  destruct (is_slash c && starts_with_slash t) eqn:E; simpl; [|by rewrite IH].
  apply andb_prop in E as [-> _]. by rewrite IH.
Qed.

Lemma remove_slashes_test s :
  (0 <? String.length (remove_slashes s))%nat = negb (all_slashes s).
Proof.
  induction s as [|c t IH]; [done|]. simpl. destruct (is_slash c); [exact IH | done].
Qed.

Lemma strip_all_slashes s : all_slashes s = true -> strip_trailing_slashes s = "".
Proof. destruct s as [|c t]; simpl; [done|]. by intros ->. Qed.

Lemma all_slashes_strip s : all_slashes (strip_trailing_slashes s) = all_slashes s.
Proof.
  induction s as [|c t IH]; [done|]. simpl.
  destruct (is_slash c && all_slashes t) eqn:E; [done|].
  simpl. by rewrite IH.
Qed.

Lemma starts_strip s :
  all_slashes s = false ->
  starts_with_slash (strip_trailing_slashes s) = starts_with_slash s.
Proof. destruct s as [|c t]; simpl; [done|]. by intros ->. Qed.

(** Trailing slashes of a suffix go with the trailing slashes of the whole. *)
Lemma strip_app_strip p z :
  strip_trailing_slashes (p +:+ strip_trailing_slashes z) = strip_trailing_slashes (p +:+ z).
Proof.
  induction p as [|c t IH].
  - rewrite !string_app_nil_l. induction z as [|c t IH]; [done|]. simpl.
    destruct (is_slash c && all_slashes t) eqn:E; [done|].
    simpl. by rewrite all_slashes_strip, E, IH.
  - rewrite !string_app_cons. simpl. by rewrite !all_slashes_app, all_slashes_strip, IH.
Qed.

Lemma strip_idem s :
  strip_trailing_slashes (strip_trailing_slashes s) = strip_trailing_slashes s.
Proof. apply (strip_app_strip "" s). Qed.

Lemma strip_replace_comm s :
  strip_trailing_slashes (replace_slash_runs s) = replace_slash_runs (strip_trailing_slashes s).
Proof.
  induction s as [|c t IH]; [by rewrite replace_slash_runs_nil|].
  simpl strip_trailing_slashes.
  destruct (is_slash c && all_slashes t) eqn:E.
  - rewrite replace_slash_runs_nil. apply strip_all_slashes.
    by rewrite all_slashes_replace.
  - rewrite !replace_slash_runs_cons.
    destruct (is_slash c) eqn:Hc; cbn [andb] in *.
    + rewrite (starts_strip t E).
      destruct (starts_with_slash t); [exact IH|].
      simpl. by rewrite Hc, all_slashes_replace, E, IH.
    + simpl. by rewrite Hc, IH.
Qed.

Lemma replace_slashes_prefix x y :
  all_slashes x = true ->
  replace_slash_runs (x +:+ String "/" y) = replace_slash_runs (String "/" y).
Proof.
  induction x as [|c t IH]; [done|]. simpl. intros [Hc Ht]%andb_prop.
  rewrite string_app_cons, replace_slash_runs_cons, Hc, starts_with_slash_app.
  destruct t as [|d u]; [done|].
  cbn [starts_with_slash]. rewrite (all_slashes_starts _ _ Ht). cbn [andb]. by apply IH.
Qed.

Lemma replace_strip_app x y :
  replace_slash_runs (strip_trailing_slashes x +:+ String "/" y)
  = replace_slash_runs (x +:+ String "/" y).
Proof.
  induction x as [|c t IH]; [done|]. simpl strip_trailing_slashes.
  destruct (is_slash c && all_slashes t) eqn:E.
  - symmetry. apply replace_slashes_prefix. simpl. exact E.
  - rewrite !string_app_cons, !replace_slash_runs_cons, IH, !starts_with_slash_app.
    destruct (is_slash c) eqn:Hc; cbn [andb] in *; [|reflexivity].
    destruct t as [|d u]; [done|].
    assert (starts_with_slash (strip_trailing_slashes (String d u))
            = starts_with_slash (String d u)) as Hs by (by apply starts_strip).
    destruct (strip_trailing_slashes (String d u)) eqn:Es.
    + exfalso. pose proof (all_slashes_strip (String d u)) as Ha.
      rewrite Es, E in Ha. discriminate.
    + by rewrite Hs.
Qed.

Lemma normalize_norm (strArray : list string) :
  strArray <> [] -> normalize strArray = norm (String.concat "/" strArray).
Proof.
  intros Hne. unfold normalize, norm. destruct strArray; [done|]. simpl length.
  cbn [Nat.eqb]. rewrite remove_slashes_test. by destruct (all_slashes _).
Qed.

Lemma norm_replace s t :
  replace_slash_runs s = replace_slash_runs t -> norm s = norm t.
Proof. unfold norm. by intros ->. Qed.

Lemma norm_app_l x y : norm (norm x +:+ String "/" y) = norm (x +:+ String "/" y).
Proof.
  apply norm_replace. unfold norm.
  destruct (all_slashes (replace_slash_runs x)).
  - apply replace_slash_runs_app_l.
  - by rewrite replace_strip_app, replace_slash_runs_app_l.
Qed.

Lemma norm_app_r x y : norm (x +:+ norm y) = norm (x +:+ y).
Proof.
  unfold norm at 2. destruct (all_slashes (replace_slash_runs y)) eqn:E.
  - apply norm_replace, replace_slash_runs_app_r.
  - unfold norm.
    rewrite !all_slashes_replace, !all_slashes_app, all_slashes_strip, E.
    rewrite all_slashes_replace in E. rewrite E, !andb_false_r.
    rewrite (strip_replace_comm (x +:+ _)), strip_app_strip.
    by rewrite <- strip_replace_comm, replace_slash_runs_app_r.
Qed.

Lemma norm_idem s : norm (norm s) = norm s.
Proof. pose proof (norm_app_r "" s) as H. by rewrite !string_app_nil_l in H. Qed.

(** *** The regular expressions against the specification's runs *)

Lemma runs_nil s : runs s = [] -> s = "".
Proof.
  destruct s as [|c t]; [done|]. simpl.
  destruct (runs t) as [|[d n] r]; [done|]. by destruct (c =? d)%char.
Qed.

Lemma runs_head s d n r : runs s = (d, n) :: r -> exists u m, s = String d u /\ n = S m.
Proof.
  destruct s as [|c t]; [done|]. simpl.
  destruct (runs t) as [|[e k] r']; [|destruct (c =? e)%char]; intros [= -> <- <-]; eauto.
Qed.

Lemma replace_slash_runs_collapse s : replace_slash_runs s = collapse_slash_runs s.
Proof.
  unfold collapse_slash_runs.
  induction s as [|c t IH]; [by rewrite replace_slash_runs_nil|].
  rewrite replace_slash_runs_cons. simpl runs.
  destruct (runs t) as [|[d n] r] eqn:Er.
  - apply runs_nil in Er as ->. rewrite replace_slash_runs_nil. simpl.
    by rewrite andb_false_r.
  - destruct (runs_head _ _ _ _ Er) as (u & m & -> & ->).
    cbn [starts_with_slash]. rewrite IH. clear IH Er.
    destruct (Ascii.eqb_spec c d) as [<-|Hne].
    + destruct (is_slash c) eqn:Hc; cbn [andb map]; rewrite Hc; cbn [andb].
      * by destruct m.
      * reflexivity.
    + assert (is_slash c && is_slash d = false) as ->.
      { apply andb_false_iff. destruct (is_slash c) eqn:Hc; [right|by left].
        destruct (is_slash d) eqn:Hd; [|done].
        apply is_slash_true in Hc, Hd. congruence. }
      cbn [map]. by rewrite andb_false_r.
Qed.

(** What stripping takes away is a row of slashes at the end, and all of
    them. *)
Lemma strip_trailing_slashes_spec s :
  all_slashes s = false ->
  (exists k, s = strip_trailing_slashes s +:+ repeat_char "/" k)
  /\ ends_with_slash (strip_trailing_slashes s) = false.
Proof.
  induction s as [|c t IH]; [done|]. simpl all_slashes. intros E.
  simpl strip_trailing_slashes. rewrite E.
  destruct (all_slashes t) eqn:Ht.
  - rewrite andb_true_r in E. rewrite (strip_all_slashes t Ht). split.
    + clear IH. exists (String.length t). rewrite string_app_cons, string_app_nil_l. f_equal.
      induction t as [|d u IHu]; [done|]. simpl in Ht. apply andb_prop in Ht as [Hd Hu].
      apply is_slash_true in Hd as ->. simpl. f_equal. by apply IHu.
    + simpl. exact E.
  - destruct (IH eq_refl) as [[k Hk] Hend]. split.
    + exists k. by rewrite string_app_cons, <- Hk.
    + simpl. destruct (strip_trailing_slashes t) eqn:Es; [|exact Hend].
      pose proof (all_slashes_strip t) as Ha. rewrite Es, Ht in Ha. discriminate.
Qed.

Lemma replace_all_slashes s :
  all_slashes s = true -> replace_slash_runs s = match s with "" => "" | _ => "/" end.
Proof.
  induction s as [|c t IH]; [by rewrite replace_slash_runs_nil|].
  simpl. intros [Hc Ht]%andb_prop. rewrite replace_slash_runs_cons, Hc, (IH Ht).
  apply is_slash_true in Hc as ->.
  destruct t as [|d u]; [done|]. cbn [starts_with_slash].
  by rewrite (all_slashes_starts _ _ Ht).
Qed.

Lemma filter_strings_VStr (parts : list string) : filter_strings (map VStr parts) = parts.
Proof.
  unfold filter_strings. induction parts as [|x l IH]; [done|]. simpl. f_equal. exact IH.
Qed.

Lemma concat_two (a b : string) : String.concat "/" [a; b] = a +:+ String "/" b.
Proof. reflexivity. Qed.

(** The cases of [test/utils.test.ts]. *)
Example pathJoin_tests :
  pathJoin [VStr "path"; VStr "to"; VStr "resource"] = "path/to/resource"
  /\ pathJoin [VStr "path//to"; VStr "resource"] = "path/to/resource"
  /\ pathJoin [VStr "path/to/resource//"] = "path/to/resource"
  /\ pathJoin [VStr "/"; VStr "/"; VStr "/"] = "/"
  /\ pathJoin [VStr "//"; VStr "//"; VStr "//"] = "/"
  /\ pathJoin [VStr "/"; VStr "path"; VStr "to"; VStr "resource"] = "/path/to/resource"
  /\ pathJoin [] = ""
  /\ pathJoin [VNull; VStr ""] = "".
Proof. repeat split; reflexivity. Qed.

(** The filter of the source keeps what the specification keeps. *)
Lemma filter_strings_segments (args : list value) :
  filter_strings args = string_segments args.
Proof.
  induction args as [|v rest IH]; [done|].
  destruct v; simpl; try exact IH. f_equal. exact IH.
Qed.

(** C5: [pathJoin] drops the arguments that are no strings (they leave
    no segment behind, not even an empty one), joins the others with a
    slash and gives every run of two or more slashes as one slash; when a
    character other than a slash is left, it takes away the slashes at
    the end, all of them; when only slashes are left, the result is the
    single slash (the empty string when there was nothing to join).  So
    [pathJoin("", "")] is ["/"] and
    [pathJoin("path", null, "to", undefined, "resource")] is
    ["path/to/resource"]. *)
Theorem pathJoin_spec (args : list value) :
  let parts := string_segments args in
  let joined := String.concat "/" parts in
  let squeezed := collapse_slash_runs joined in
  pathJoin args = pathJoin (map VStr parts)
  /\ (all_slashes squeezed = false ->
      (exists k, squeezed = pathJoin args +:+ repeat_char "/" k)
      /\ ends_with_slash (pathJoin args) = false)
  /\ (all_slashes squeezed = true ->
      pathJoin args = squeezed
      /\ pathJoin args = match joined with "" => "" | _ => "/" end)
  /\ pathJoin [VStr ""; VStr ""] = "/"
  /\ pathJoin [VStr "path"; VNull; VStr "to"; VUndefined; VStr "resource"]
     = "path/to/resource"
  /\ pathJoin [VNull; VStr "to"] = "to".
Proof.
  intros parts joined squeezed.
  assert (pathJoin args = norm joined) as Hnorm.
  { unfold pathJoin. rewrite filter_strings_segments. fold parts.
    destruct parts as [|p l] eqn:E; [done|]. by apply normalize_norm. }
  split; [|split; [|split; [|split; [|split]]]]; try reflexivity.
  - unfold pathJoin at 2. rewrite filter_strings_VStr.
    unfold pathJoin. by rewrite filter_strings_segments.
  - intros Hs. rewrite Hnorm. unfold norm.
    rewrite replace_slash_runs_collapse. fold squeezed. rewrite Hs.
    by apply strip_trailing_slashes_spec.
  - intros Hs. rewrite Hnorm. unfold norm.
    rewrite replace_slash_runs_collapse. fold squeezed. rewrite Hs.
    split; [reflexivity|].
    subst squeezed. rewrite <- replace_slash_runs_collapse in *.
    rewrite all_slashes_replace in Hs. by apply replace_all_slashes.
Qed.

(** C6: for all strings [a], [b] and [c], joining is associative,
    [join(join(a,b), c) = join(a, join(b,c))], and joining what a join
    gave changes nothing, [join(join(a,b)) = join(a,b)]. *)
Theorem pathJoin_assoc_idem (a b c : string) :
  pathJoin [VStr (pathJoin [VStr a; VStr b]); VStr c]
  = pathJoin [VStr a; VStr (pathJoin [VStr b; VStr c])]
  /\ pathJoin [VStr (pathJoin [VStr a; VStr b])] = pathJoin [VStr a; VStr b].
Proof.
  unfold pathJoin. cbn [filter_strings omap list_omap].
  rewrite !normalize_norm by done. rewrite !concat_two. cbn [String.concat].
  split.
  - assert (forall x y : string, x +:+ String "/" y = (x +:+ "/") +:+ y) as Hsl
      by (intros x y; by rewrite string_app_assoc).
    rewrite norm_app_l, (Hsl a (norm _)), norm_app_r, <- Hsl.
    by rewrite string_app_assoc, string_app_cons.
  - apply norm_idem.
Qed.

End UtilsFacts.

(** ** The parameter extractor *)

Module ExtractorFacts.
Import JS Server ServerSpec.

Lemma getParam_direct (props : list (string * value)) name :
  getParam (VObj props) None name =
  let field := default VUndefined (assoc name props) in
  if truthy field then Ok field else Ok (VObj props).
Proof. reflexivity. Qed.

Lemma getParam_nested source paramType (props : list (string * value)) name :
  get_prop source paramType = Ok (VObj props) ->
  getParam source (Some paramType) name =
  let field := default VUndefined (assoc name props) in
  if truthy field then Ok field
  else checkQueryParam (Some paramType) (VObj props) name.
Proof. intros H. unfold getParam. simpl. rewrite H. reflexivity. Qed.

(** A binding whose source object is an object yields the field of its
    name when that is truthy, and the fallback of its kind otherwise. *)
Lemma bindingValue_source ctx next item props :
  sourceObject ctx (type item) = Ok (VObj props) ->
  bindingValue ctx next item =
  let field := default VUndefined (assoc (parameterName item) props) in
  if truthy field then Ok field
  else fallback (type item) (VObj props) (parameterName item).
Proof.
  unfold bindingValue, sourceObject. destruct (type item); simpl; intros H;
    try discriminate.
  - rewrite H. apply getParam_direct.
  - rewrite H. apply getParam_direct.
  - by rewrite (getParam_nested _ _ _ _ H).
  - by rewrite (getParam_nested _ _ _ _ H).
  - destruct (get_prop ctx "request") as [request|] eqn:Er; [|discriminate].
    simpl in *. by rewrite (getParam_nested _ _ _ _ H).
  - destruct (get_prop ctx "request") as [request|] eqn:Er; [|discriminate].
    simpl in *. by rewrite (getParam_nested _ _ _ _ H).
  - by rewrite (getParam_nested _ _ _ _ H).
  - injection H as ->. apply getParam_direct.
Qed.

Lemma slot_array_set_same args i v : slot (array_set args i v) i = Some v.
Proof.
  unfold slot, array_set. destruct (Nat.ltb_spec i (length args)).
  - by rewrite list_lookup_insert_eq.
  - rewrite lookup_app_r by lia. rewrite lookup_app_r; rewrite length_replicate; [|lia].
    by replace (i - length args - (i - length args)) with 0 by lia.
Qed.

Lemma slot_array_set_other args i j v : i <> j -> slot (array_set args i v) j = slot args j.
Proof.
  intros Hne. unfold slot, array_set. destruct (Nat.ltb_spec i (length args)).
  - by rewrite list_lookup_insert_ne.
  - destruct (Nat.lt_ge_cases j (length args)).
    + by rewrite lookup_app_l.
    + rewrite (lookup_ge_None_2 args j) by lia. rewrite lookup_app_r by lia.
      destruct (Nat.lt_ge_cases j i).
      * rewrite lookup_app_l by (rewrite length_replicate; lia).
        rewrite lookup_replicate_2 by lia. reflexivity.
      * rewrite lookup_app_r by (rewrite length_replicate; lia).
        rewrite length_replicate.
        destruct (j - length args - (i - length args)) as [|k] eqn:E; [lia|reflexivity].
Qed.

(** After the loop, an index is either the index of a binding in the
    list, and then holds the value of one such binding, or it holds what
    it held before. *)
Lemma fillArguments_slots ctx next params : forall args slots,
  fillArguments ctx next params args = Ok slots ->
  forall j,
    (exists item v, item ∈ params /\ index item = j
                    /\ bindingValue ctx next item = Ok v /\ slot slots j = Some v)
    \/ ((forall item, item ∈ params -> index item <> j) /\ slot slots j = slot args j).
Proof.
  induction params as [|item rest IH]; intros args slots Hfill j.
  - right. injection Hfill as <-. split; [|done]. intros item Hin. by apply elem_of_nil in Hin.
  - simpl in Hfill. destruct (bindingValue ctx next item) as [v|] eqn:Ev; [|discriminate].
    simpl in Hfill. destruct (IH _ _ Hfill j) as [(item' & v' & Hin & Hj & Hv & Hs)|[Hno Hs]].
    + left. exists item', v'. split; [by apply elem_of_cons; right | done].
    + destruct (decide (index item = j)) as [Heq|Hne].
      * left. exists item, v. split; [apply elem_of_cons; by left|].
        split; [done|]. split; [done|]. rewrite Hs, <- Heq. apply slot_array_set_same.
      * right. split.
        -- intros item' [->|Hin]%elem_of_cons; [done | by apply Hno].
        -- rewrite Hs. by apply slot_array_set_other.
Qed.

Lemma get_prop_truthy v name : truthy v = true -> exists w, get_prop v name = Ok w.
Proof. destruct v; simpl; try discriminate; eauto. Qed.

Lemma getParam_total source paramType name :
  truthy source = true ->
  paramType <> Some "cookies" ->
  exists v, getParam source paramType name = Ok v.
Proof.
  intros Hs Hc. unfold getParam.
  assert (exists param, truthy param = true /\
            match paramType with
            | Some paramType =>
                field ← get_prop source paramType;
                Ok (if truthy field then field else source)
            | None => Ok source
            end = Ok param) as (param & Hp & ->).
  { destruct paramType as [pt|]; [|eauto].
    destruct (get_prop_truthy source pt Hs) as [field ->]. simpl.
    destruct (truthy field) eqn:Hf; eauto. }
  simpl. destruct (get_prop_truthy param name Hp) as [field ->]. simpl.
  destruct (truthy field); [eauto|]. unfold checkQueryParam.
  repeat case_decide; try done; eauto.
Qed.

Lemma bindingValue_total ctx next item :
  koa_context ctx = true -> exists v, bindingValue ctx next item = Ok v.
Proof.
  unfold koa_context. destruct ctx as [| | | | |props| | |]; try discriminate.
  intros [[Hreq Hres]%andb_prop Hjar]%andb_prop.
  destruct (default VUndefined (assoc "request" props)) as [| | | | |request| | |] eqn:Ereq;
    try discriminate.
  destruct (default VUndefined (assoc "response" props)) as [| | | | |response| | |] eqn:Eres;
    try discriminate.
  destruct (assoc "cookies" props) as [[| | | | |jar| | |]|] eqn:Ejar; try discriminate.
  destruct (default VUndefined (assoc "get" jar)) as [| | | | | |get graph| |] eqn:Eget;
    try discriminate.
  unfold bindingValue. destruct (type item); simpl; rewrite ?Ereq, ?Eres; simpl;
    try (by apply getParam_total); eauto.
  unfold getParam. simpl. rewrite Ejar. simpl.
  destruct (truthy _); [eauto|]. unfold checkQueryParam.
  repeat case_decide; try done. simpl. rewrite Eget. simpl. eauto.
Qed.

Lemma fillArguments_total ctx next params :
  koa_context ctx = true ->
  forall args, exists slots, fillArguments ctx next params args = Ok slots.
Proof.
  intros Hctx. induction params as [|item rest IH]; intros args; simpl; [eauto|].
  destruct (bindingValue_total ctx next item Hctx) as [v ->]. simpl. apply IH.
Qed.

Lemma slot_app_l (slots rest : list (option value)) j v :
  slot slots j = Some v -> slot (slots ++ rest) j = Some v.
Proof.
  unfold slot. destruct (slots !! j) as [o|] eqn:E; [|done].
  intros <-. by rewrite (lookup_app_l_Some _ _ _ _ E).
Qed.

(** The value of a binding is found at the binding's index, when no
    other binding of the list has that index. *)
Lemma extractParameters_slot ctx next params args item v :
  extractParameters ctx next params = Ok args ->
  item ∈ params ->
  (forall item', item' ∈ params -> index item' = index item -> item' = item) ->
  bindingValue ctx next item = Ok v ->
  slot args (index item) = Some v.
Proof.
  unfold extractParameters. intros Hex Hin Huniq Hv.
  destruct params as [|p l]; [by apply elem_of_nil in Hin|]. cbn [length Nat.eqb] in Hex.
  destruct (fillArguments ctx next (p :: l) []) as [slots|] eqn:Hfill; [|discriminate].
  injection Hex as <-. apply slot_app_l.
  destruct (fillArguments_slots _ _ _ _ _ Hfill (index item))
    as [(item' & v' & Hin' & Hj & Hv' & Hs)|[Hno _]].
  - rewrite (Huniq _ Hin' Hj) in Hv'. congruence.
  - by destruct (Hno _ Hin).
Qed.

(** C4: on a Koa context the extractor returns, for every list of
    bindings, an argument array that ends with the context and the
    continuation, after the slots that the bindings filled by index
    (whether or not a binding also asked for the context or the
    continuation); the indices that no binding names stay unset.  For the
    empty list the array is the context and the continuation alone. *)
Theorem extractParameters_trailing ctx next params :
  koa_context ctx = true ->
  exists slots,
    extractParameters ctx next params = Ok (slots ++ [Some ctx; Some next])
    /\ (params = [] -> slots = [])
    /\ (forall item, item ∈ params ->
        exists item' v, item' ∈ params /\ index item' = index item
                        /\ bindingValue ctx next item' = Ok v
                        /\ slot slots (index item) = Some v)
    /\ (forall j, (forall item, item ∈ params -> index item <> j) -> slot slots j = None).
Proof.
  intros Hctx. unfold extractParameters.
  destruct params as [|p l].
  - exists []. split; [done|]. split; [done|]. split; [|done].
    intros item Hin. by apply elem_of_nil in Hin.
  - cbn [length Nat.eqb].
    destruct (fillArguments_total ctx next (p :: l) Hctx []) as [slots Hfill].
    exists slots. rewrite Hfill. split; [done|]. split; [done|]. split.
    + intros item Hin.
      destruct (fillArguments_slots _ _ _ _ _ Hfill (index item))
        as [(item' & v' & Hin' & Hj & Hv' & Hs)|[Hno _]]; [by eauto 10|].
      by destruct (Hno _ Hin).
    + intros j Hj.
      destruct (fillArguments_slots _ _ _ _ _ Hfill j)
        as [(item' & v' & Hin' & Hj' & _)|[_ Hs]]; [by destruct (Hj _ Hin')|].
      by rewrite Hs.
Qed.

Lemma extractParameters_trailing_witness :
  koa_context Sample.ctx = true
  /\ extractParameters Sample.ctx nextHandle Sample.params
     = Ok [Some VUndefined; Some Sample.ctx; Some nextHandle;
           Some Sample.ctx; Some nextHandle]
  /\ exists slots,
       extractParameters Sample.ctx nextHandle Sample.params
       = Ok (slots ++ [Some Sample.ctx; Some nextHandle])
       /\ (Sample.params = [] -> slots = [])
       /\ (forall item, item ∈ Sample.params ->
           exists item' v, item' ∈ Sample.params /\ index item' = index item
                           /\ bindingValue Sample.ctx nextHandle item' = Ok v
                           /\ slot slots (index item) = Some v)
       /\ (forall j, (forall item, item ∈ Sample.params -> index item <> j) ->
           slot slots j = None).
Proof.
  split; [reflexivity|]. split; [reflexivity|].
  apply (extractParameters_trailing Sample.ctx nextHandle Sample.params). reflexivity.
Defined.

(** C7, amended: when the source object of a binding has no field of the
    binding's name, a query-param binding yields [undefined]; a cookie
    binding yields what the jar's [get(name)] returns; the bindings of
    the other kinds with a source object (request, response, route-param,
    body, header, context) yield the whole source object. *)
Theorem absent_field_binding ctx next item props :
  sourceObject ctx (type item) = Ok (VObj props) ->
  assoc (parameterName item) props = None ->
  bindingValue ctx next item =
  match type item with
  | QUERY => Ok VUndefined
  | COOKIES => get ← get_prop (VObj props) "get"; call get (parameterName item)
  | _ => Ok (VObj props)
  end.
Proof.
  intros Hsrc Habs. rewrite (bindingValue_source _ _ _ _ Hsrc), Habs. simpl.
  unfold fallback. by destruct (type item).
Qed.

Lemma absent_field_binding_witness :
  let item := {| parameterName := "empty"; index := 2; type := QUERY |} in
  sourceObject Sample.ctx QUERY = Ok (VObj [("test", VStr "testquery")])
  /\ assoc "empty" [("test", VStr "testquery")] = None
  /\ bindingValue Sample.ctx nextHandle item = Ok VUndefined.
Proof.
  split; [reflexivity|]. split; [reflexivity|].
  apply (absent_field_binding Sample.ctx nextHandle
           {| parameterName := "empty"; index := 2; type := QUERY |}
           [("test", VStr "testquery")]); reflexivity.
Defined.

(** Against C7 as it is worded: a cookie binding whose name the jar does
    not have yields the result of [get(name)], here [undefined], and not
    the whole cookie jar. *)
Lemma cookie_absent_not_whole_jar :
  let item := {| parameterName := "theme"; index := 0; type := COOKIES |} in
  sourceObject Sample.ctx (type item) = Ok Sample.jar
  /\ get_prop Sample.jar "theme" = Ok VUndefined
  /\ bindingValue Sample.ctx nextHandle item = Ok VUndefined
  /\ bindingValue Sample.ctx nextHandle item <> Ok Sample.jar.
Proof. repeat split; done. Qed.

(** C10, amended: a field that is there but holds a falsy value counts
    as no field: the binding yields the fallback of its kind, which is
    the whole source object for request, response, body, header and
    context (and route-param), the jar's [get(name)] for a cookie, and
    [undefined] for a query-param.  So the binding yields [undefined] for
    a query-param, and for a cookie when that is what [get(name)] gives;
    for no other kind. *)
Theorem falsy_field_binding ctx next item props v :
  sourceObject ctx (type item) = Ok (VObj props) ->
  assoc (parameterName item) props = Some v ->
  truthy v = false ->
  bindingValue ctx next item =
  match type item with
  | QUERY => Ok VUndefined
  | COOKIES => get ← get_prop (VObj props) "get"; call get (parameterName item)
  | _ => Ok (VObj props)
  end
  /\ (bindingValue ctx next item = Ok VUndefined ->
      type item = QUERY
      \/ type item = COOKIES
         /\ (get ← get_prop (VObj props) "get"; call get (parameterName item))
            = Ok VUndefined).
Proof.
  intros Hsrc Hv Hfalsy.
  assert (bindingValue ctx next item =
          match type item with
          | QUERY => Ok VUndefined
          | COOKIES => get ← get_prop (VObj props) "get"; call get (parameterName item)
          | _ => Ok (VObj props)
          end) as Hvalue.
  { rewrite (bindingValue_source _ _ _ _ Hsrc), Hv. simpl.
    rewrite Hfalsy. unfold fallback. by destruct (type item). }
  split; [exact Hvalue|]. rewrite Hvalue.
  destruct (type item); try discriminate; auto.
Qed.

Lemma falsy_field_binding_witness :
  let headers := [("testhead", VStr "foo"); ("x-empty", VStr "")] in
  let item := {| parameterName := "x-empty"; index := 0; type := HEADERS |} in
  sourceObject Sample.ctx HEADERS = Ok (VObj headers)
  /\ assoc "x-empty" headers = Some (VStr "")
  /\ truthy (VStr "") = false
  /\ bindingValue Sample.ctx nextHandle item = Ok (VObj headers).
Proof.
  split; [reflexivity|]. split; [reflexivity|]. split; [reflexivity|].
  apply (falsy_field_binding Sample.ctx nextHandle
           {| parameterName := "x-empty"; index := 0; type := HEADERS |}
           [("testhead", VStr "foo"); ("x-empty", VStr "")] (VStr "")); reflexivity.
Defined.

(** Against C10 as it is worded, in its last clause: the cookie jar has a
    property [secure] that holds [false] and no cookie of that name; the
    cookie binding [secure] yields [undefined], and it is no
    query-param. *)
Lemma falsy_cookie_yields_undefined :
  let item := {| parameterName := "secure"; index := 0; type := COOKIES |} in
  sourceObject Sample.ctx (type item) = Ok Sample.jar
  /\ get_prop Sample.jar "secure" = Ok (VBool false)
  /\ truthy (VBool false) = false
  /\ bindingValue Sample.ctx nextHandle item = Ok VUndefined
  /\ type item <> QUERY
  /\ ~ (forall (item' : ParameterMetadata) props v,
          sourceObject Sample.ctx (type item') = Ok (VObj props) ->
          assoc (parameterName item') props = Some v ->
          truthy v = false ->
          bindingValue Sample.ctx nextHandle item' = Ok VUndefined ->
          type item' = QUERY).
Proof.
  repeat (split; [reflexivity|]). split; [discriminate|].
  intros Honly.
  specialize (Honly {| parameterName := "secure"; index := 0; type := COOKIES |}
                _ (VBool false) eq_refl eq_refl eq_refl eq_refl).
  discriminate.
Qed.

End ExtractorFacts.

(** ** The dispatcher *)

Module DispatcherFacts.
Import JS JSFacts Server ServerSpec.

(** C8, amended: when the call of the controller method returns a truthy
    value that is not a promise, the dispatcher assigns it as the body of
    the response if the headers have not been sent, and leaves the
    context as it is if they have; when the call returns a promise, the
    dispatcher returns that promise and assigns nothing. *)
Theorem dispatcher_result self controllerName key parameterMetadata ctx next result props :
  invokeController self controllerName key parameterMetadata ctx next
  = Returned result (VObj props) ->
  let headerSent := default VUndefined (assoc "headerSent" props) in
  let outcome := handlerFactory self controllerName key parameterMetadata ctx next in
  (isPromise result = true -> outcome = Returned result (VObj props))
  /\ (isPromise result = false -> truthy result = true -> truthy headerSent = false ->
      outcome = Returned VUndefined (VObj (assoc_set "body" result props))
      /\ get_prop (VObj (assoc_set "body" result props)) "body" = Ok result)
  /\ (isPromise result = false -> truthy result = true -> truthy headerSent = true ->
      outcome = Returned VUndefined (VObj props)).
Proof.
  intros Hcall headerSent outcome. subst outcome. unfold handlerFactory. rewrite Hcall.
  split; [|split].
  - intros Hp. destruct result; try discriminate. reflexivity.
  - intros Hp Ht Hs. rewrite Hp, Ht, andb_false_r. simpl. fold headerSent. rewrite Hs.
    simpl. split; [reflexivity|]. by rewrite assoc_set_same.
  - intros Hp Ht Hs. rewrite Hp, Ht, andb_false_r. simpl. fold headerSent. by rewrite Hs.
Qed.

Lemma dispatcher_result_witness :
  let self := Sample.server [] in
  let props := [("request", Sample.request); ("response", Sample.response);
                ("params", VObj [("id", VStr "5")]);
                ("query", VObj [("test", VStr "testquery")]);
                ("cookies", Sample.jar); ("state", VObj []);
                ("headerSent", VBool false)] in
  let result := VObj [("hello", VStr "world")] in
  invokeController self "TestController" "getTest" [] Sample.ctx Sample.done
  = Returned result (VObj props)
  /\ handlerFactory self "TestController" "getTest" [] Sample.ctx Sample.done
     = Returned VUndefined (VObj (props ++ [("body", result)])).
Proof.
  split; [reflexivity|].
  apply (dispatcher_result (Sample.server []) "TestController" "getTest" []
           Sample.ctx Sample.done (VObj [("hello", VStr "world")]) _ eq_refl);
    reflexivity.
Defined.

(** Against C8 as it is worded: the method returns the number 0, which is
    not a promise, the headers have not been sent, and the dispatcher
    leaves the context as it was: no body is assigned. *)
Lemma falsy_result_not_assigned :
  let self := Sample.server [] in
  invokeController self "TestController" "getCount" [] Sample.ctx Sample.done
  = Returned (VNum 0) Sample.ctx
  /\ isPromise (VNum 0) = false
  /\ get_prop Sample.ctx "headerSent" = Ok (VBool false)
  /\ handlerFactory self "TestController" "getCount" [] Sample.ctx Sample.done
     = Returned VUndefined Sample.ctx
  /\ get_prop Sample.ctx "body" <> Ok (VNum 0).
Proof. repeat split; done. Qed.

(** C9: when the call of the controller method returns a falsy value, the
    dispatcher leaves the context, and so the body, as the method left
    it, whether or not the headers have been sent; and whenever the
    dispatcher hands on another context than the method left, the value
    returned was truthy and not a promise. *)
Theorem dispatcher_falsy_result self controllerName key parameterMetadata ctx next result ctx' :
  invokeController self controllerName key parameterMetadata ctx next
  = Returned result ctx' ->
  let outcome := handlerFactory self controllerName key parameterMetadata ctx next in
  (truthy result = false -> outcome = Returned VUndefined ctx')
  /\ (forall v ctx'', outcome = Returned v ctx'' -> ctx'' <> ctx' ->
      truthy result = true /\ isPromise result = false).
Proof.
  intros Hcall outcome. subst outcome. unfold handlerFactory. rewrite Hcall.
  split.
  - by intros ->.
  - intros v ctx''. destruct (truthy result) eqn:Ht; simpl.
    + destruct (isPromise result); [|done]. by intros [= _ ->].
    + by intros [= _ ->].
Qed.

Lemma dispatcher_falsy_result_witness :
  let self := Sample.server [] in
  invokeController self "TestController" "getCount" [] Sample.ctx Sample.done
  = Returned (VNum 0) Sample.ctx
  /\ (truthy (VNum 0) = false ->
      handlerFactory self "TestController" "getCount" [] Sample.ctx Sample.done
      = Returned VUndefined Sample.ctx).
Proof.
  split; [reflexivity|].
  apply (dispatcher_falsy_result (Sample.server []) "TestController" "getCount" []
           Sample.ctx Sample.done (VNum 0) Sample.ctx eq_refl).
Defined.

(** The three outcomes on the sample controller: a plain object becomes
    the body; once the headers are sent it is dropped; a promise is
    handed back. *)
Example dispatcher_cases :
  let self := Sample.server [] in
  (exists ctx',
      handlerFactory self "TestController" "getTest" [] Sample.ctx Sample.done
      = Returned VUndefined ctx'
      /\ get_prop ctx' "body" = Ok (VObj [("hello", VStr "world")]))
  /\ handlerFactory self "TestController" "getTest" [] Sample.ctxSent Sample.done
     = Returned VUndefined Sample.ctxSent
  /\ handlerFactory self "TestController" "getLater" [] Sample.ctx Sample.done
     = Returned (VPromise (VStr "later")) Sample.ctx
  /\ handlerFactory self "TestController" "missing" [] Sample.ctx Sample.done
     = Threw TypeError.
Proof. split; [eexists; split; reflexivity|]. repeat split; reflexivity. Qed.

End DispatcherFacts.

(** ** The authorization gate *)

Module AuthorizationFacts.
Import JS JSFacts Server ServerSpec.

(** The loop over the required roles leaves [isAuthorized] set exactly
    when the principal is in every one of them. *)
Lemma role_loop (principal : Principal) (requiredRoles : list string) (isAuthorized : bool) :
  fold_left (fun isAuthorized requiredRole =>
               if negb (isInRole principal requiredRole) then false else isAuthorized)
            requiredRoles isAuthorized
  = isAuthorized && forallb (isInRole principal) requiredRoles.
Proof.
  revert isAuthorized. induction requiredRoles as [|role rest IH]; intros isAuthorized; simpl.
  - by rewrite andb_true_r.
  - rewrite IH. destruct (isInRole principal role), isAuthorized; reflexivity.
Qed.

Lemma challenge_flags (principal : Principal) requiredRoles :
  challenge (VPrincipal principal) requiredRoles
  = Ok (isAuthenticated principal,
        isAuthenticated principal && forallb (isInRole principal) requiredRoles).
Proof.
  unfold challenge. destruct (isAuthenticated principal); [|reflexivity].
  by rewrite role_loop.
Qed.

(** C2: a request that reaches the authorization handler of a rule fails
    with 401 when its state holds no principal or a principal that is not
    authenticated, fails with 403 when the principal is authenticated but
    is not in one of the required roles of the rule, and otherwise goes
    on to the continuation. *)
Theorem authorizationHandler_outcome requiredRoles ctx next principal :
  statePrincipal ctx = Ok principal ->
  let outcome := authorizationHandlerFactory requiredRoles ctx next in
  (truthy principal = false -> outcome = Threw (HttpError 401))
  /\ (forall p, principal = VPrincipal p -> isAuthenticated p = false ->
      outcome = Threw (HttpError 401))
  /\ (forall p role, principal = VPrincipal p -> isAuthenticated p = true ->
      role ∈ requiredRoles -> isInRole p role = false ->
      outcome = Threw (HttpError 403))
  /\ (forall p, principal = VPrincipal p -> isAuthenticated p = true ->
      (forall role, role ∈ requiredRoles -> isInRole p role = true) ->
      outcome = next ctx).
Proof.
  intros Hstate outcome. subst outcome. unfold authorizationHandlerFactory.
  rewrite Hstate. simpl. split; [|split; [|split]].
  - by intros ->.
  - intros p -> Hauth. cbn [truthy]. by rewrite challenge_flags, Hauth.
  - intros p role -> Hauth Hin Hrole. cbn [truthy]. rewrite challenge_flags, Hauth. simpl.
    assert (forallb (isInRole p) requiredRoles = false) as ->; [|reflexivity].
    apply not_true_is_false. intros Hall. rewrite forallb_forall in Hall.
    apply list_elem_of_In in Hin. rewrite (Hall _ Hin) in Hrole. discriminate.
  - intros p -> Hauth Hall. cbn [truthy]. rewrite challenge_flags, Hauth. simpl.
    assert (forallb (isInRole p) requiredRoles = true) as ->; [|reflexivity].
    apply forallb_forall. intros role Hin. apply Hall. by apply list_elem_of_In.
Qed.

Lemma authorizationHandler_outcome_witness :
  let ctx := Sample.ctxOf (VPrincipal Sample.admin) in
  statePrincipal ctx = Ok (VPrincipal Sample.admin)
  /\ authorizationHandlerFactory ["admin"; "editor"] ctx Sample.done
     = Threw (HttpError 403)
  /\ authorizationHandlerFactory ["admin"] ctx Sample.done = Sample.done ctx.
Proof.
  split; [reflexivity|]. split.
  - destruct (authorizationHandler_outcome ["admin"; "editor"]
                (Sample.ctxOf (VPrincipal Sample.admin)) Sample.done
                (VPrincipal Sample.admin) eq_refl) as (_ & _ & H403 & _).
    apply (H403 Sample.admin "editor"); [reflexivity | reflexivity | | reflexivity].
    apply elem_of_cons; right. apply elem_of_cons; by left.
  - destruct (authorizationHandler_outcome ["admin"]
                (Sample.ctxOf (VPrincipal Sample.admin)) Sample.done
                (VPrincipal Sample.admin) eq_refl) as (_ & _ & _ & Hnext).
    apply (Hnext Sample.admin); [reflexivity | reflexivity |].
    intros role Hin. apply list_elem_of_singleton in Hin as ->. reflexivity.
Defined.

(** The cases of the integration tests: no principal and an anonymous
    principal get 401, whatever the roles; an administrator passes a rule
    without roles and the rule ["admin"], and gets 403 on ["editor"]. *)
Example authorization_cases :
  authorizationHandlerFactory ["admin"] Sample.ctx Sample.done = Threw (HttpError 401)
  /\ authorizationHandlerFactory [] (Sample.ctxOf (VPrincipal Sample.anonymous)) Sample.done
     = Threw (HttpError 401)
  /\ authorizationHandlerFactory [] (Sample.ctxOf (VPrincipal Sample.admin)) Sample.done
     = Returned VUndefined (Sample.ctxOf (VPrincipal Sample.admin))
  /\ authorizationHandlerFactory ["admin"] (Sample.ctxOf (VPrincipal Sample.admin)) Sample.done
     = Returned VUndefined (Sample.ctxOf (VPrincipal Sample.admin))
  /\ authorizationHandlerFactory ["editor"] (Sample.ctxOf (VPrincipal Sample.admin)) Sample.done
     = Threw (HttpError 403).
Proof. repeat split; reflexivity. Qed.

End AuthorizationFacts.

(** ** Route registration *)

Module RegistrationFacts.
Import JS Server ServerSpec.

Section Registration.

Variable DEFAULT_ROUTING_ROOT_PATH : string.
Variable self : InversifyKoaServer.

Lemma routeHandlers_expected controller cm metadata :
  routeHandlers self controller cm (resolveMiddleware self (c_middleware cm)) metadata
  = chain (expectedRoute self controller cm metadata).
Proof. reflexivity. Qed.

(** On the roles of a rule and on the bindings of a method, the handlers
    are those of the declared types. *)
Lemma authorizationHandlerFactory_roles roles :
  authorizationHandlerFactory_unchecked (Roles roles) = authorizationHandlerFactory roles.
Proof. reflexivity. Qed.

Lemma handlerFactory_bindings controllerName key params :
  handlerFactory_unchecked self controllerName key (Bindings params)
  = handlerFactory self controllerName key params.
Proof. reflexivity. Qed.

Lemma plainBindings_declared controller key :
  plainBindings controller key = true ->
  paramListOf controller key
  = Bindings (match parameterMetadata controller with
              | Some bindings => default [] (bindings !! key)
              | None => []
              end).
Proof.
  unfold plainBindings, paramListOf, parameterMetadataAt.
  destruct (parameterMetadata controller) as [bindings|]; [|done].
  destruct (bindings !! key); [done|].
  destruct (bindings !! "__proto__").
  - destruct (decide _); [done|]. destruct (element 0 _ key); [done|].
    by destruct (method key _).
  - destruct (decide _); [done|]. by destruct (method key ObjectPrototype).
Qed.

Lemma plainRule_declared controller key :
  plainRule controller key = true ->
  match authorizeMetadata controller with
  | Some rules => authorizeMetadataAt rules key
  | None => None
  end
  = match authorizeMetadata controller with
    | Some rules => Rule <$> rules !! key
    | None => None
    end.
Proof.
  unfold plainRule, authorizeMetadataAt.
  destruct (authorizeMetadata controller) as [rules|]; [|done].
  destruct (rules !! key); [done|].
  destruct (decide _); [done|].
  destruct (rules !! "__proto__"); repeat (destruct (decide _); [done|]);
    by destruct (method key _).
Qed.

(** Where the name of the method finds no inherited member in the two
    registries, the chain is the chain of section 3. *)
Lemma routeHandlers_specified controller cm metadata :
  plainRule controller (m_key metadata) = true ->
  plainBindings controller (m_key metadata) = true ->
  routeHandlers self controller cm (resolveMiddleware self (c_middleware cm)) metadata
  = specifiedChain self controller cm metadata.
Proof.
  intros Hrule Hbindings. unfold routeHandlers, specifiedChain.
  fold (paramListOf controller (m_key metadata)).
  rewrite (plainBindings_declared _ _ Hbindings).
  apply plainRule_declared in Hrule.
  do 3 f_equal.
  destruct (authorizeAllMetadata controller), (authorizeMetadata controller) as [rules|];
    try reflexivity; rewrite Hrule; by destruct (rules !! m_key metadata).
Qed.

Lemma registerMethod_expected controller cm router metadata :
  registerMethod self controller cm (resolveMiddleware self (c_middleware cm)) router metadata
  = {| prefix := prefix router;
       stack := stack router ++ [expectedRoute self controller cm metadata] |}.
Proof.
  unfold registerMethod, Router_register. rewrite routeHandlers_expected. reflexivity.
Qed.

Lemma registerMethods_stack controller cm methods : forall router,
  fold_left (registerMethod self controller cm (resolveMiddleware self (c_middleware cm)))
            methods router
  = {| prefix := prefix router;
       stack := stack router ++ map (expectedRoute self controller cm) methods |}.
Proof.
  induction methods as [|metadata rest IH]; intros router; simpl.
  - rewrite app_nil_r. by destruct router.
  - rewrite IH, registerMethod_expected. simpl. by rewrite <- app_assoc.
Qed.

Lemma registerController_stack router controller :
  registerController self router controller
  = {| prefix := prefix router;
       stack := stack router ++ expectedRoutes self controller |}.
Proof.
  unfold registerController, expectedRoutes.
  destruct (controllerMetadata controller) as [cm|];
    [destruct (methodMetadata controller) as [methods|]|].
  - apply registerMethods_stack.
  - rewrite app_nil_r. by destruct router.
  - rewrite app_nil_r. by destruct router.
Qed.

Lemma registerControllers_fold controllers : forall router,
  stack (fold_left (registerController self) controllers router)
  = stack router ++ concat (map (expectedRoutes self) controllers).
Proof.
  induction controllers as [|controller rest IH]; intros router; simpl.
  - by rewrite app_nil_r.
  - rewrite IH, registerController_stack. simpl. by rewrite <- app_assoc.
Qed.

End Registration.

Example registered_chain :
  let self := Sample.server [InlineHandler Sample.spy] in
  map chain (stack (registerControllers "/" self))
  = [ map InlineHandler
        [ Sample.spy; Sample.spy;
          authorizationHandlerFactory ["admin"]; authorizationHandlerFactory ["editor"];
          handlerFactory self "TestController" "getTest" [] ] ]
  /\ map verb (stack (registerControllers "/" self)) = ["get"]
  /\ map path (stack (registerControllers "/" self)) = ["/"].
Proof. repeat split; reflexivity. Qed.

(** What the names of methods find in the two registries of a class
    whose method [getTest] carries [@authorize("editor")] and a parameter
    decorator. *)
Example registry_reads :
  let rule := {| requiredRoles := ["editor"]; a_target := Sample.prototype;
                 a_key := "getTest" |} in
  let rules : gmap string AuthorizeMetadata := {[ "getTest" := rule ]} in
  let binding := {| parameterName := "id"; index := 0; type := PARAMS |} in
  let bindings : gmap string (list ParameterMetadata) := {[ "getTest" := [binding] ]} in
  authorizeMetadataAt rules "getTest" = Some (Rule rule)
  /\ authorizeMetadataAt rules "getAll" = None
  /\ authorizeMetadataAt rules "find" = Some (Method "find" 1)
  /\ authorizeMetadataAt rules "toString" = Some (Method "toString" 0)
  /\ authorizeMetadataAt rules "length" = Some LengthOfArray
  /\ authorizeMetadataAt rules "__proto__" = Some ArrayPrototypeItself
  /\ authorizeMetadataAt (<["__proto__" := rule]> rules) "find" = None
  /\ authorizeMetadataAt (<["__proto__" := rule]> rules) "key" = Some (KeyOfRule "getTest")
  /\ parameterMetadataAt bindings "getTest" = Some (Bindings [binding])
  /\ parameterMetadataAt bindings "find" = None
  /\ parameterMetadataAt bindings "hasOwnProperty" = Some (PrototypeMethod "hasOwnProperty" 1)
  /\ parameterMetadataAt (<["__proto__" := [binding]]> bindings) "0" = Some (Binding binding)
  /\ parameterMetadataAt (<["__proto__" := [binding]]> bindings) "find"
     = Some (PrototypeMethod "find" 1)
  /\ Decorators.authorize ["editor"] Sample.prototype "length" Decorators.undecorated
     = Throw RangeError.
Proof. repeat split; reflexivity. Qed.

(** C1, where the code misses it: the class of the test "should protect
    the method which is annotated with @authorize but not the method in
    the same controller without @authorize", with [find] as the name of
    the method without a rule.  The registry of the rules is an array,
    and [authorizeMetadata["find"]] is the [find] of arrays: the route of
    that method is registered with an authorization handler that no rule
    stands for, made for the roles [undefined], in front of the
    dispatcher.  A request of a principal who is not authenticated fails
    with 401, that of an authenticated one with a [TypeError], where the
    chain of section 3 has the dispatcher answer. *)
Theorem find_route_extra_handler :
  exists cls cm,
    ExtraSample.FindController = Ok cls
    /\ controllerMetadata cls = Some cm
    /\ (exists getTest, methodMetadata cls = Some [getTest; ExtraSample.find])
    /\ ~ hasAuthorizationRule cls ExtraSample.find
    /\ (let self := ExtraSample.serverOf cls Sample.admin in
        specifiedChain self cls cm ExtraSample.find
        = [InlineHandler (handlerFactory self "TestController" "find" [])]
        /\ (exists route,
              stack (registerControllers "/" self) !! 1 = Some route
              /\ verb route = "get" /\ path route = "/"
              /\ chain route
                 = [InlineHandler (authorizationHandlerFactory_unchecked (NotRoles VUndefined));
                    InlineHandler (handlerFactory self "TestController" "find" [])])
        /\ requestPipeline self []
             [authorizationHandlerFactory_unchecked (NotRoles VUndefined);
              handlerFactory self "TestController" "find" []]
             Sample.ctx Sample.done
           = Threw TypeError
        /\ requestPipeline self [] [handlerFactory self "TestController" "find" []]
             Sample.ctx Sample.done
           = Returned VUndefined
               (VObj [("request", Sample.request); ("response", Sample.response);
                      ("params", VObj [("id", VStr "5")]);
                      ("query", VObj [("test", VStr "testquery")]);
                      ("cookies", Sample.jar);
                      ("state", VObj [("principal", VPrincipal Sample.admin)]);
                      ("headerSent", VBool false);
                      ("body", VStr "response")]))
    /\ (let self := ExtraSample.serverOf cls Sample.anonymous in
        requestPipeline self []
          [authorizationHandlerFactory_unchecked (NotRoles VUndefined);
           handlerFactory self "TestController" "find" []]
          Sample.ctx Sample.done
        = Threw (HttpError 401)).
Proof.
  eexists _, _. split; [reflexivity|]. split; [reflexivity|].
  split; [eexists; reflexivity|]. split.
  - intros [[rule Hall]|(rules & Hrules & [rule Hrule])]; [discriminate|].
    injection Hrules as <-. vm_compute in Hrule. discriminate.
  - split; [|reflexivity].
    split; [reflexivity|]. split; [|split; reflexivity].
    eexists. split; [reflexivity|]. repeat split; reflexivity.
Qed.

End RegistrationFacts.

(** ** Requests without an auth provider *)

Module PipelineFacts.
Import JS JSFacts Server ServerSpec.

Lemma forwards_principal handlers ctx ctx' :
  forwards handlers ctx ctx' -> statePrincipal ctx' = statePrincipal ctx.
Proof. induction 1; congruence. Qed.

(** Handlers that pass the request on lead to the rest of the chain;
    they make of its outcome what they will, but a failure is theirs. *)
Lemma compose_forwards handlers ctx ctx' :
  forwards handlers ctx ctx' ->
  exists after : Outcome -> Outcome,
    (forall e, after (Threw e) = Threw e)
    /\ forall rest next,
         compose (handlers ++ rest) ctx next = after (compose rest ctx' next).
Proof.
  induction 1 as [ctx|h l ctx ctx1 ctx2 after Hh Hafter _ _ (after' & Hafter' & IH)].
  - exists (fun outcome => outcome). done.
  - exists (fun outcome => after (after' outcome)). split.
    + intros e. by rewrite Hafter', Hafter.
    + intros rest next. cbn [app compose]. by rewrite Hh, IH.
Qed.

Lemma functions_handlers (handlers : list KoaRequestHandler) :
  functions (map InlineHandler handlers) = Some handlers.
Proof. induction handlers as [|h l IH]; [done|]. simpl. by rewrite IH. Qed.

Lemma functions_app chain1 chain2 handlers1 handlers2 :
  functions chain1 = Some handlers1 ->
  functions chain2 = Some handlers2 ->
  functions (chain1 ++ chain2) = Some (handlers1 ++ handlers2).
Proof.
  revert handlers1. induction chain1 as [|[id|h] l IH]; intros handlers1 H1 H2.
  - by injection H1 as <-.
  - discriminate.
  - simpl in *. destruct (functions l) as [hs|]; [|discriminate].
    injection H1 as <-. by rewrite (IH hs eq_refl H2).
Qed.

(** The first middleware of [build], by the context that it hands on. *)
Lemma principalMiddleware_withPrincipal self ctx next :
  principalMiddleware self ctx next
  = match withPrincipal self ctx with
    | Throw e => Threw e
    | Ok ctx1 =>
        match next ctx1 with
        | Returned _ ctx => Returned VUndefined ctx
        | Threw e => Threw e
        end
    end.
Proof. reflexivity. Qed.

Lemma withPrincipal_principal self ctx state ctx1 :
  get_prop ctx "state" = Ok (VObj state) ->
  withPrincipal self ctx = Ok ctx1 ->
  statePrincipal ctx1 = Ok (_getCurrentPrincipal self ctx).
Proof.
  unfold withPrincipal. intros Hstate. rewrite Hstate.
  destruct ctx as [| | | | |props| | |]; try discriminate.
  cbn [mbind result_bind set_prop]. intros [= <-].
  unfold statePrincipal. simpl. rewrite assoc_set_same. simpl.
  by rewrite assoc_set_same.
Qed.


(** The chain of a route: middleware, authorization handlers,
    dispatcher. *)
Lemma routeHandlers_shape self controller cm controllerMiddleware metadata :
  routeHandlers self controller cm controllerMiddleware metadata
  = (controllerMiddleware ++ resolveMiddleware self (m_middleware metadata))
    ++ map InlineHandler (gates controller (m_key metadata)
                          ++ [dispatcher self controller cm (m_key metadata)]).
Proof.
  unfold routeHandlers, gates, dispatcher.
  rewrite <- app_assoc, map_app. do 3 f_equal.
  destruct (authorizeAllMetadata controller), (authorizeMetadata controller) as [rules|];
    try destruct (authorizeMetadataAt rules (m_key metadata)); reflexivity.
Qed.



Lemma forwards_sample ctx : forwards [Sample.awaitNext; Sample.spy; Sample.spy] ctx ctx.
Proof.
  apply (forwards_cons _ _ ctx ctx ctx
           (fun outcome => match outcome with
                           | Returned _ ctx => Returned VUndefined ctx
                           | Threw e => Threw e
                           end)); [done..|].
  do 2 (apply (forwards_cons _ _ ctx ctx ctx (fun outcome => outcome)); [done..|]).
  constructor.
Qed.



End PipelineFacts.

(** * Further properties of the code *)

(** ** The path join *)

Module UtilsMore.
Import JS Utils PathJoinSpec ExtraSpec UtilsFacts.

Lemma pathJoin_norm args :
  pathJoin args =
  match filter_strings args with
  | [] => ""
  | parts => norm (String.concat "/" parts)
  end.
Proof.
  unfold pathJoin. destruct (filter_strings args) as [|p l] eqn:E; [done|].
  by apply normalize_norm.
Qed.

Lemma no_double_slash_replace s : no_double_slash (replace_slash_runs s) = true.
Proof.
  induction s as [|c t IH]; [by rewrite replace_slash_runs_nil|].
  rewrite replace_slash_runs_cons.
  destruct (is_slash c && starts_with_slash t) eqn:E; [exact IH|].
  simpl. by rewrite starts_replace_slash_runs, E, IH.
Qed.

Lemma no_double_slash_strip s :
  no_double_slash s = true -> no_double_slash (strip_trailing_slashes s) = true.
Proof.
  induction s as [|c t IH]; [done|]. simpl.
  intros [Hc Ht]%andb_prop.
  destruct (is_slash c && all_slashes t) eqn:E; [done|]. simpl.
  rewrite (IH Ht), andb_true_r.
  destruct (all_slashes t) eqn:Ha.
  - rewrite (strip_all_slashes t Ha). simpl. by rewrite andb_false_r.
  - by rewrite (starts_strip t Ha).
Qed.

Lemma ends_with_slash_strip s : ends_with_slash (strip_trailing_slashes s) = false.
Proof.
  destruct (all_slashes s) eqn:E.
  - by rewrite strip_all_slashes.
  - by apply strip_trailing_slashes_spec.
Qed.

Lemma normal_norm s : normal_path (norm s) = true.
Proof.
  unfold normal_path, norm. destruct (all_slashes (replace_slash_runs s)) eqn:E.
  - rewrite no_double_slash_replace. rewrite all_slashes_replace in E.
    rewrite (replace_all_slashes s E). by destruct s.
  - rewrite no_double_slash_strip by apply no_double_slash_replace.
    by rewrite ends_with_slash_strip.
Qed.

(** X1: whatever the arguments, the joined path has no two slashes in a
    row, and it ends with a slash only when it is the path ["/"]. *)
Theorem pathJoin_normal (args : list value) :
  no_double_slash (pathJoin args) = true
  /\ (ends_with_slash (pathJoin args) = true -> pathJoin args = "/").
Proof.
  assert (normal_path (pathJoin args) = true) as H.
  { rewrite pathJoin_norm. destruct (filter_strings args); [done|]. apply normal_norm. }
  unfold normal_path in H. apply andb_prop in H as [H1 H2]. split; [exact H1|].
  intros He. rewrite He in H2. simpl in H2. by apply String.eqb_eq.
Qed.

Lemma replace_no_double_slash s : no_double_slash s = true -> replace_slash_runs s = s.
Proof.
  induction s as [|c t IH]; [by rewrite replace_slash_runs_nil|].
  simpl. intros [Hc Ht]%andb_prop. rewrite replace_slash_runs_cons.
  apply negb_true_iff in Hc. by rewrite Hc, (IH Ht).
Qed.

Lemma all_slashes_ends s : all_slashes s = true -> s <> "" -> ends_with_slash s = true.
Proof.
  induction s as [|c t IH]; [done|]. simpl. intros [Hc Ht]%andb_prop _.
  destruct t as [|d u]; [exact Hc|]. by apply IH.
Qed.

Lemma strip_no_trailing s : ends_with_slash s = false -> strip_trailing_slashes s = s.
Proof.
  induction s as [|c t IH]; [done|]. intros He.
  assert (is_slash c && all_slashes t = false) as Hcond.
  { apply not_true_is_false. intros [Hc Ht]%andb_prop.
    rewrite (all_slashes_ends (String c t)) in He; [done| |done]. simpl. by rewrite Hc, Ht. }
  simpl. rewrite Hcond. f_equal. apply IH. by destruct t.
Qed.

Lemma norm_normal s : normal_path s = true -> norm s = s.
Proof.
  unfold normal_path, norm. intros [Hd He]%andb_prop.
  rewrite (replace_no_double_slash s Hd).
  destruct (all_slashes s) eqn:Ha; [done|].
  apply strip_no_trailing. destruct (ends_with_slash s); [|done].
  simpl in He. apply String.eqb_eq in He. by subst s.
Qed.

(** X2: the paths that [pathJoin] returns unchanged are exactly the
    normal ones; and joining again what any call returned changes
    nothing. *)
Theorem pathJoin_fixed_points (s : string) (args : list value) :
  (pathJoin [VStr s] = s <-> normal_path s = true)
  /\ pathJoin [VStr (pathJoin args)] = pathJoin args.
Proof.
  assert (forall t, pathJoin [VStr t] = norm t) as H1 by (intros t; by rewrite pathJoin_norm).
  split.
  - rewrite H1. split.
    + intros <-. apply normal_norm.
    + apply norm_normal.
  - rewrite H1, (pathJoin_norm args). destruct (filter_strings args); [done|].
    apply norm_idem.
Qed.






Lemma concat_cons sep (x y : string) (l : list string) :
  String.concat sep (x :: y :: l) = x +:+ sep +:+ String.concat sep (y :: l).
Proof. reflexivity. Qed.



Lemma starts_norm s : starts_with_slash (norm s) = starts_with_slash s.
Proof.
  unfold norm. destruct (all_slashes (replace_slash_runs s)) eqn:E.
  - apply starts_replace_slash_runs.
  - rewrite (starts_strip _ E). apply starts_replace_slash_runs.
Qed.

(** X4: without a string among the arguments the joined path is empty;
    otherwise it starts with a slash exactly when the first string
    argument does, or when that argument is empty and another string
    follows it. *)
Theorem pathJoin_leading_slash (args : list value) :
  match string_segments args with
  | [] => pathJoin args = ""
  | "" :: rest => starts_with_slash (pathJoin args) = negb (bool_decide (rest = []))
  | p :: _ => starts_with_slash (pathJoin args) = starts_with_slash p
  end.
Proof.
  rewrite <- filter_strings_segments.
  destruct (filter_strings args) as [|p rest] eqn:Hparts.
  - unfold pathJoin. by rewrite Hparts.
  - assert (starts_with_slash (pathJoin args)
            = starts_with_slash (String.concat "/" (p :: rest))) as Hstart
      by (by rewrite pathJoin_norm, Hparts, starts_norm).
    destruct rest as [|q l].
    + destruct p; exact Hstart.
    + rewrite concat_cons, starts_with_slash_app in Hstart. destruct p; exact Hstart.
Qed.

Lemma concat_app (xs ys : list string) :
  xs <> [] -> ys <> [] ->
  String.concat "/" (xs ++ ys)
  = String.concat "/" xs +:+ String "/" (String.concat "/" ys).
Proof.
  intros Hx Hy. induction xs as [|x [|x' l] IH]; [done| |].
  - destruct ys; [done|]. reflexivity.
  - change ((x :: x' :: l) ++ ys) with (x :: x' :: (l ++ ys)).
    rewrite !concat_cons. change (x' :: l ++ ys) with ((x' :: l) ++ ys).
    rewrite IH by done. by rewrite !string_app_assoc.
Qed.

(** X5: joining in two steps is joining at once: a first join of at
    least one string, put in front of further arguments, gives the path
    that all the arguments give together. *)
Theorem pathJoin_staged (xs : list string) (rest : list value) :
  xs <> [] ->
  pathJoin (VStr (pathJoin (map VStr xs)) :: rest) = pathJoin (map VStr xs ++ rest).
Proof.
  intros Hx.
  assert (filter_strings (map VStr xs ++ rest) = xs ++ filter_strings rest) as Hf.
  { unfold filter_strings. rewrite omap_app. f_equal. apply filter_strings_VStr. }
  assert (pathJoin (map VStr xs) = norm (String.concat "/" xs)) as Hj.
  { rewrite pathJoin_norm, filter_strings_VStr. by destruct xs. }
  rewrite (pathJoin_norm (map VStr xs ++ rest)), Hf, pathJoin_norm, Hj.
  change (filter_strings (VStr ?a :: rest)) with (a :: filter_strings rest).
  destruct (filter_strings rest) as [|y l].
  - rewrite app_nil_r. destruct xs; [done|]. apply norm_idem.
  - destruct xs as [|x xs']; [done|]. cbn [app].
    change (x :: xs' ++ y :: l) with ((x :: xs') ++ y :: l).
    rewrite concat_app by done. rewrite concat_cons.
    change ("/" +:+ ?z) with (String "/" z). apply norm_app_l.
Qed.

Lemma pathJoin_staged_witness :
  ["api"; "v1/"] <> []
  /\ pathJoin (VStr (pathJoin (map VStr ["api"; "v1/"])) :: [VNull; VStr "/users//"])
     = pathJoin (map VStr ["api"; "v1/"] ++ [VNull; VStr "/users//"]).
Proof.
  split; [discriminate|].
  apply (pathJoin_staged ["api"; "v1/"] [VNull; VStr "/users//"]). discriminate.
Defined.

End UtilsMore.

(** ** The parameter extractor *)

Module ExtractorMore.
Import JS Server ServerSpec ExtraSpec ExtractorFacts.

Lemma length_array_set args i v : length (array_set args i v) = length args `max` S i.
Proof.
  unfold array_set. destruct (Nat.ltb_spec i (length args)).
  - rewrite length_insert. lia.
  - rewrite !length_app, length_replicate. simpl. lia.
Qed.

Lemma fillArguments_length ctx next params : forall args slots,
  fillArguments ctx next params args = Ok slots ->
  length slots = length args `max` argumentsLength params.
Proof.
  induction params as [|item rest IH]; intros args slots Hfill; simpl in *.
  - injection Hfill as <-. lia.
  - destruct (bindingValue ctx next item) as [v|]; [|discriminate]. simpl in Hfill.
    rewrite (IH _ _ Hfill), length_array_set. lia.
Qed.

Lemma slot_app_r (slots rest : list (option value)) j :
  slot (slots ++ rest) (length slots + j) = slot rest j.
Proof. unfold slot. by rewrite lookup_app_r, Nat.add_comm, Nat.add_sub by lia. Qed.

(** X6: with at least one binding, the argument array is as long as the
    highest bound index requires, plus two: the context comes right after
    the highest bound index, and the continuation after the context. *)
Theorem extractParameters_positions ctx next params :
  koa_context ctx = true ->
  params <> [] ->
  exists args,
    extractParameters ctx next params = Ok args
    /\ length args = argumentsLength params + 2
    /\ slot args (argumentsLength params) = Some ctx
    /\ slot args (S (argumentsLength params)) = Some next.
Proof.
  intros Hctx Hne. unfold extractParameters. destruct params as [|p l]; [done|].
  cbn [length Nat.eqb].
  destruct (fillArguments_total ctx next (p :: l) Hctx []) as [slots Hfill].
  rewrite Hfill. exists (slots ++ [Some ctx; Some next]). split; [reflexivity|].
  pose proof (fillArguments_length _ _ _ _ _ Hfill) as Hlen. cbn [length] in Hlen.
  rewrite Nat.max_0_l in Hlen. rewrite <- Hlen. split; [|split].
  - rewrite length_app. simpl. lia.
  - by rewrite <- (Nat.add_0_r (length slots)), slot_app_r.
  - by rewrite <- (Nat.add_1_r (length slots)), slot_app_r.
Qed.

Lemma extractParameters_positions_witness :
  koa_context Sample.ctx = true
  /\ Sample.params <> []
  /\ exists args,
       extractParameters Sample.ctx nextHandle Sample.params = Ok args
       /\ length args = argumentsLength Sample.params + 2
       /\ slot args (argumentsLength Sample.params) = Some Sample.ctx
       /\ slot args (S (argumentsLength Sample.params)) = Some nextHandle.
Proof.
  split; [reflexivity|]. split; [discriminate|].
  apply (extractParameters_positions Sample.ctx nextHandle Sample.params);
    [reflexivity | discriminate].
Defined.

Lemma list_eq_slot (l1 l2 : list (option value)) :
  length l1 = length l2 -> (forall i, slot l1 i = slot l2 i) -> l1 = l2.
Proof.
  intros Hlen Hslot. apply list_eq. intros i. specialize (Hslot i). unfold slot in Hslot.
  destruct (l1 !! i) as [x|] eqn:E1, (l2 !! i) as [y|] eqn:E2; simpl in Hslot.
  - by subst.
  - apply lookup_lt_Some in E1. apply lookup_ge_None in E2. lia.
  - apply lookup_ge_None in E1. apply lookup_lt_Some in E2. lia.
  - done.
Qed.

(** Writes at two different indices can be done in either order. *)
Lemma array_set_comm args i j v w :
  i <> j ->
  array_set (array_set args i v) j w = array_set (array_set args j w) i v.
Proof.
  intros Hne. apply list_eq_slot.
  - rewrite !length_array_set. lia.
  - intros k. destruct (decide (k = j)) as [->|Hj]; [|destruct (decide (k = i)) as [->|Hi]].
    + by rewrite slot_array_set_same, slot_array_set_other, slot_array_set_same.
    + by rewrite slot_array_set_other, !slot_array_set_same.
    + by rewrite !slot_array_set_other.
Qed.

Lemma get_prop_throws v name e : get_prop v name = Throw e -> e = TypeError.
Proof. destruct v; simpl; congruence. Qed.

Lemma getParam_throws source paramType name e :
  getParam source paramType name = Throw e -> e = TypeError.
Proof.
  unfold getParam, checkQueryParam.
  destruct paramType as [pt|]; simpl.
  - destruct (get_prop source pt) as [f|e'] eqn:E1; simpl;
      [|intros [= <-]; by apply get_prop_throws in E1].
    destruct (get_prop (if truthy f then f else source) name) as [g|e'] eqn:E2; simpl;
      [|intros [= <-]; by apply get_prop_throws in E2].
    destruct (truthy g); [done|]. repeat case_decide; try done.
    destruct (get_prop (if truthy f then f else source) "get") as [h|e'] eqn:E3; simpl;
      [|intros [= <-]; by apply get_prop_throws in E3].
    destruct h; simpl; congruence.
  - destruct (get_prop source name) as [g|e'] eqn:E2; simpl;
      [|intros [= <-]; by apply get_prop_throws in E2].
    destruct (truthy g); [done|]. repeat case_decide; done.
Qed.

Lemma bindingValue_throws ctx next item e :
  bindingValue ctx next item = Throw e -> e = TypeError.
Proof.
  unfold bindingValue. destruct (type item); simpl; try apply getParam_throws; try done.
  all: destruct (get_prop ctx _) as [r|e'] eqn:E; simpl;
    [apply getParam_throws | intros [= <-]; by apply get_prop_throws in E].
Qed.

Lemma fillArguments_perm ctx next (params params' : list ParameterMetadata) :
  Permutation params params' ->
  NoDup (map index params) ->
  forall args, fillArguments ctx next params args = fillArguments ctx next params' args.
Proof.
  induction 1 as [|x l l' Hperm IH|x y l|l l' l'' H1 IH1 H2 IH2]; intros Hnd args.
  - reflexivity.
  - simpl. destruct (bindingValue ctx next x); [|done]. simpl.
    apply IH. by apply NoDup_cons_1_2 in Hnd.
  - simpl.
    assert (index x <> index y) as Hne.
    { simpl in Hnd. apply NoDup_cons in Hnd as [Hy _]. intros Heq. apply Hy.
      rewrite Heq. apply elem_of_cons. by left. }
    destruct (bindingValue ctx next y) as [vy|ey] eqn:Ey,
             (bindingValue ctx next x) as [vx|ex] eqn:Ex; simpl; try reflexivity.
    + by rewrite array_set_comm.
    + apply bindingValue_throws in Ey, Ex. by subst.
  - rewrite IH1 by done. apply IH2.
    eapply NoDup_Permutation_proper; [|exact Hnd]. symmetry. by apply Permutation_map.
Qed.

(** X7: when no two bindings have the same index, the order of the
    bindings in the list does not matter: any rearrangement of the list
    gives the same result, the same arguments or the same failure. *)
Theorem extractParameters_order ctx next (params params' : list ParameterMetadata) :
  Permutation params params' ->
  NoDup (map index params) ->
  extractParameters ctx next params = extractParameters ctx next params'.
Proof.
  intros Hperm Hnd. unfold extractParameters.
  rewrite (Permutation_length Hperm), (fillArguments_perm _ _ _ _ Hperm Hnd). reflexivity.
Qed.

Lemma extractParameters_order_witness :
  Permutation Sample.params (reverse Sample.params)
  /\ NoDup (map index Sample.params)
  /\ extractParameters Sample.ctx nextHandle Sample.params
     = extractParameters Sample.ctx nextHandle (reverse Sample.params).
Proof.
  assert (Permutation Sample.params (reverse Sample.params)) as Hperm
    by (symmetry; apply reverse_Permutation).
  assert (NoDup (map index Sample.params)) as Hnd
    by (simpl; repeat (apply NoDup_cons_2;
                         [intros Hin;
                          repeat (apply elem_of_cons in Hin as [Hin|Hin]; [discriminate|]);
                          by apply elem_of_nil in Hin|]);
        apply NoDup_nil_2).
  split; [exact Hperm|]. split; [exact Hnd|].
  apply (extractParameters_order Sample.ctx nextHandle Sample.params
           (reverse Sample.params) Hperm Hnd).
Defined.

Lemma fillArguments_app ctx next (pre post : list ParameterMetadata) args :
  fillArguments ctx next (pre ++ post) args
  = (slots ← fillArguments ctx next pre args; fillArguments ctx next post slots).
Proof.
  revert args. induction pre as [|item rest IH]; intros args; simpl; [done|].
  destruct (bindingValue ctx next item); simpl; [apply IH | done].
Qed.

(** X8: when several bindings of the list have the same index, the slot
    holds the value of the last of them. *)
Theorem extractParameters_last_wins ctx next pre item post args :
  extractParameters ctx next (pre ++ item :: post) = Ok args ->
  (forall item', item' ∈ post -> index item' <> index item) ->
  exists v, bindingValue ctx next item = Ok v /\ slot args (index item) = Some v.
Proof.
  unfold extractParameters. rewrite length_app. simpl length.
  replace (length pre + S (length post) =? 0)%nat with false
    by (symmetry; apply Nat.eqb_neq; lia).
  rewrite fillArguments_app. intros Hex Hpost.
  destruct (fillArguments ctx next pre []) as [slots0|]; [|discriminate]. simpl in Hex.
  destruct (bindingValue ctx next item) as [v|]; [|discriminate]. simpl in Hex.
  destruct (fillArguments ctx next post _) as [slots|] eqn:Hfill; [|discriminate].
  injection Hex as <-. exists v. split; [done|]. apply slot_app_l.
  destruct (fillArguments_slots _ _ _ _ _ Hfill (index item))
    as [(item' & v' & Hin & Hj & _)|[_ ->]].
  - by destruct (Hpost _ Hin).
  - apply slot_array_set_same.
Qed.

Lemma extractParameters_last_wins_witness :
  let first := {| parameterName := "id"; index := 0; type := PARAMS |} in
  let last := {| parameterName := "test"; index := 0; type := QUERY |} in
  extractParameters Sample.ctx nextHandle ([first] ++ last :: [])
  = Ok [Some (VStr "testquery"); Some Sample.ctx; Some nextHandle]
  /\ (forall item', item' ∈ [] -> index item' <> index last)
  /\ exists v, bindingValue Sample.ctx nextHandle last = Ok v
               /\ slot [Some (VStr "testquery"); Some Sample.ctx; Some nextHandle]
                       (index last) = Some v.
Proof.
  assert (forall item' : ParameterMetadata, item' ∈ [] -> index item' <> 0) as Hpost
    by (intros item' Hin; by apply elem_of_nil in Hin).
  split; [reflexivity|]. split; [exact Hpost|].
  apply (extractParameters_last_wins Sample.ctx nextHandle
           [{| parameterName := "id"; index := 0; type := PARAMS |}]
           {| parameterName := "test"; index := 0; type := QUERY |} []
           _ eq_refl Hpost).
Defined.

(** X9: a field of the binding's name that holds a truthy value is what
    the binding yields, for every kind with a source object; for a
    cookie binding, a property of the jar object goes before the cookie
    of that name. *)
Theorem truthy_field_binding ctx next item props v :
  sourceObject ctx (type item) = Ok (VObj props) ->
  assoc (parameterName item) props = Some v ->
  truthy v = true ->
  bindingValue ctx next item = Ok v.
Proof.
  intros Hsrc Hv Ht. rewrite (bindingValue_source _ _ _ _ Hsrc), Hv. simpl. by rewrite Ht.
Qed.

Lemma truthy_field_binding_witness :
  let item := {| parameterName := "get"; index := 0; type := COOKIES |} in
  sourceObject Sample.ctx COOKIES = Ok Sample.jar
  /\ get_prop Sample.jar "get" = Ok (VFun "get" [("sid", VStr "abc")])
  /\ bindingValue Sample.ctx nextHandle item = Ok (VFun "get" [("sid", VStr "abc")]).
Proof.
  split; [reflexivity|]. split; [reflexivity|].
  apply (truthy_field_binding Sample.ctx nextHandle
           {| parameterName := "get"; index := 0; type := COOKIES |}
           [("secure", VBool false); ("get", VFun "get" [("sid", VStr "abc")])]
           (VFun "get" [("sid", VStr "abc")])); reflexivity.
Defined.

(** X10: when the context has no map of the kind (no parsed body, say),
    the field is looked up in the enclosing object instead, the request
    for body and headers and the context for the others, and that object
    is what the fallback of the kind works on. *)
Theorem missing_map_binding ctx next item outer missing :
  enclosingObject ctx (type item) = Ok (VObj outer) ->
  sourceObject ctx (type item) = Ok missing ->
  truthy missing = false ->
  bindingValue ctx next item =
  let field := default VUndefined (assoc (parameterName item) outer) in
  if truthy field then Ok field
  else fallback (type item) (VObj outer) (parameterName item).
Proof.
  unfold enclosingObject, sourceObject, bindingValue, getParam.
  destruct (type item); simpl; try discriminate.
  1,2,5: intros [= ->]; simpl; intros [= ->] ->; simpl; by destruct (truthy _).
  all: intros ->; simpl; intros [= ->] ->; simpl; by destruct (truthy _).
Qed.

Lemma missing_map_binding_witness :
  let request := [("url", VStr "/"); ("headers", VObj [])] in
  let item := {| parameterName := "default"; index := 0; type := BODY |} in
  enclosingObject ExtraSample.ctxNoBody BODY = Ok (VObj request)
  /\ sourceObject ExtraSample.ctxNoBody BODY = Ok VUndefined
  /\ truthy VUndefined = false
  /\ bindingValue ExtraSample.ctxNoBody nextHandle item = Ok (VObj request).
Proof.
  split; [reflexivity|]. split; [reflexivity|]. split; [reflexivity|].
  apply (missing_map_binding ExtraSample.ctxNoBody nextHandle
           {| parameterName := "default"; index := 0; type := BODY |}
           [("url", VStr "/"); ("headers", VObj [])] VUndefined); reflexivity.
Defined.

End ExtractorMore.

(** ** The decorators *)

Module DecoratorFacts.
Import JS Server ServerSpec ExtraSpec Decorators ExtractorFacts ExtractorMore.

(** X11: a parameter decorator puts its binding in front of the bindings
    that the method already has, under the name it was given or under
    ["default"] when it was given none or the empty string; the bindings
    of the other methods and the other metadata of the class stay as they
    are.  For a method called [__proto__], whose bindings are kept as the
    prototype of the registry, the binding takes the place of the
    bindings that were there. *)
Theorem paramDecorator_registers parameterType name target methodName i cls :
  let cls' := paramDecoratorFactory parameterType name target methodName i cls in
  let stored : gmap string (list ParameterMetadata) :=
    default ∅ (parameterMetadata cls) in
  (exists metadataList,
      parameterMetadata cls' = Some metadataList
      /\ metadataList !! methodName
         = Some ({| parameterName := bindingName name; index := i; type := parameterType |}
                   :: if decide (methodName = "__proto__") then []
                      else default [] (stored !! methodName))
      /\ forall other, other <> methodName -> metadataList !! other = stored !! other)
  /\ controllerMetadata cls' = controllerMetadata cls
  /\ methodMetadata cls' = methodMetadata cls
  /\ authorizeAllMetadata cls' = authorizeAllMetadata cls
  /\ authorizeMetadata cls' = authorizeMetadata cls.
Proof.
  intros cls' stored. split; [|done].
  assert ((match name with
           | Some name => if (name =? "")%string then "default" else name
           | None => "default"
           end) = bindingName name) as Hname.
  { destruct name as [n|]; [|done]. destruct (String.eqb_spec n ""); [by subst|].
    by destruct n. }
  subst cls' stored. unfold paramDecoratorFactory, params. rewrite Hname. simpl.
  destruct (parameterMetadata cls) as [m|]; simpl.
  - eexists. split; [reflexivity|]. split.
    + rewrite lookup_insert_eq. destruct (decide _); [done|]. by destruct (m !! methodName).
    + intros other Hne. by rewrite lookup_insert_ne.
  - eexists. split; [reflexivity|]. split.
    + rewrite lookup_insert_eq, lookup_empty. by destruct (decide _).
    + intros other Hne. by rewrite lookup_insert_ne.
Qed.

Lemma paramDecorator_bindingsOf parameterType name target methodName i cls :
  bindingsOf (paramDecoratorFactory parameterType name target methodName i cls) methodName
  = {| parameterName := bindingName name; index := i; type := parameterType |}
      :: if decide (methodName = "__proto__") then [] else bindingsOf cls methodName.
Proof.
  assert ((match name with
           | Some name => if (name =? "")%string then "default" else name
           | None => "default"
           end) = bindingName name) as Hname.
  { destruct name as [n|]; [|done]. destruct (String.eqb_spec n ""); [by subst|].
    by destruct n. }
  unfold bindingsOf, paramDecoratorFactory, params. rewrite Hname. simpl.
  destruct (parameterMetadata cls) as [m|]; simpl; rewrite lookup_insert_eq; simpl.
  - destruct (decide _); [done|]. by destruct (m !! methodName).
  - rewrite lookup_empty. by destruct (decide _).
Qed.

(** The class of [test/decorators.test.ts]:
    [test(@params(PARAMS, "id") id, @params(PARAMS, "cat") cat)] and
    [test2(@params(PARAMS, "dog") dog)]. *)
Example decorated_parameters :
  let cls :=
    decorateParameters [params PARAMS "dog"] "TestController" "test2" 0
      (decorateParameters [params PARAMS "id"; params PARAMS "cat"]
         "TestController" "test" 0 undecorated) in
  bindingsOf cls "test"
  = [ {| parameterName := "id"; index := 0; type := PARAMS |};
      {| parameterName := "cat"; index := 1; type := PARAMS |} ]
  /\ bindingsOf cls "test2" = [ {| parameterName := "dog"; index := 0; type := PARAMS |} ]
  /\ bindingsOf cls "test3" = [].
Proof. repeat split; reflexivity. Qed.

(** X12: the parameter decorators of a method, applied from the last
    parameter to the first, leave the bindings of the method in the order
    of the parameters, each with the position of its parameter, in front
    of the bindings that were there.  Of a method called [__proto__],
    only the binding of the first parameter is left. *)
Theorem decorateParameters_order bindings target methodName first cls :
  bindingsOf
    (decorateParameters (map (fun b => paramDecoratorFactory b.1 b.2) bindings)
       target methodName first cls)
    methodName
  = if decide (methodName = "__proto__")
    then match declaredBindings first bindings with
         | [] => bindingsOf cls methodName
         | binding :: _ => [binding]
         end
    else declaredBindings first bindings ++ bindingsOf cls methodName.
Proof.
  revert first. induction bindings as [|[parameterType name] rest IH]; intros first.
  - simpl. by destruct (decide _).
  - cbn [map decorateParameters declaredBindings fst snd].
    rewrite paramDecorator_bindingsOf, IH. by destruct (decide _).
Qed.

Lemma fillArguments_in_order ctx next params : forall vs args,
  map index params = seq (length args) (length params) ->
  Forall2 (fun item v => bindingValue ctx next item = Ok v) params vs ->
  fillArguments ctx next params args = Ok (args ++ map Some vs).
Proof.
  induction params as [|item rest IH]; intros vs args Hidx Hvs.
  - apply Forall2_nil_inv_l in Hvs as ->. simpl. by rewrite app_nil_r.
  - apply Forall2_cons_inv_l in Hvs as (v & vs' & Hv & Hrest & ->).
    simpl in Hidx. injection Hidx as Hi Hidx. simpl. rewrite Hv. simpl.
    assert (array_set args (index item) v = args ++ [Some v]) as ->.
    { unfold array_set. rewrite Hi, Nat.ltb_irrefl, Nat.sub_diag. reflexivity. }
    rewrite (IH vs' (args ++ [Some v])); [by rewrite <- app_assoc | | done].
    rewrite length_app. simpl. by rewrite Nat.add_1_r.
Qed.

Lemma bindingValues_total ctx next params :
  koa_context ctx = true ->
  exists vs, Forall2 (fun item v => bindingValue ctx next item = Ok v) params vs.
Proof.
  intros Hctx. induction params as [|item rest [vs IH]]; [by exists []|].
  destruct (bindingValue_total ctx next item Hctx) as [v Hv].
  exists (v :: vs). by constructor.
Qed.

(** X13: when the bindings of the list are those of the parameters 0, 1,
    2, ... in this order, the arguments are the values of the bindings in
    the same order, with no index left unset, then the context and the
    continuation. *)
Theorem extractParameters_in_order ctx next params :
  koa_context ctx = true ->
  map index params = seq 0 (length params) ->
  exists vs,
    Forall2 (fun item v => bindingValue ctx next item = Ok v) params vs
    /\ extractParameters ctx next params = Ok (map Some vs ++ [Some ctx; Some next]).
Proof.
  intros Hctx Hidx. destruct (bindingValues_total ctx next params Hctx) as [vs Hvs].
  exists vs. split; [exact Hvs|]. unfold extractParameters.
  destruct params as [|p l].
  - by apply Forall2_nil_inv_l in Hvs as ->.
  - cbn [length Nat.eqb]. by rewrite (fillArguments_in_order _ _ _ vs [] Hidx Hvs).
Qed.

Lemma extractParameters_in_order_witness :
  koa_context Sample.ctx = true
  /\ map index Sample.params = seq 0 (length Sample.params)
  /\ exists vs,
       Forall2 (fun item v => bindingValue Sample.ctx nextHandle item = Ok v)
               Sample.params vs
       /\ extractParameters Sample.ctx nextHandle Sample.params
          = Ok (map Some vs ++ [Some Sample.ctx; Some nextHandle]).
Proof.
  split; [reflexivity|]. split; [reflexivity|].
  apply (extractParameters_in_order Sample.ctx nextHandle Sample.params); reflexivity.
Defined.

End DecoratorFacts.

(** ** Declaring and registering routes *)

Module RegistrationMore.
Import JS Server ServerSpec ExtraSpec Decorators.

Section Registration.

Variable DEFAULT_ROUTING_ROOT_PATH : string.
Variable self : InversifyKoaServer.

Lemma registerControllers_stack :
  stack (registerControllers DEFAULT_ROUTING_ROOT_PATH self)
  = stack (_router self) ++ concat (map (expectedRoutes self) (getAll (_container self))).
Proof.
  unfold registerControllers. rewrite RegistrationFacts.registerControllers_fold.
  by destruct (decide _).
Qed.

Lemma declareRoute_frame d cls :
  controllerMetadata (declareRoute d cls) = controllerMetadata cls
  /\ methodMetadata (declareRoute d cls)
     = Some (getMetadataList (methodMetadata cls) ++ [d]).
Proof. by destruct d. Qed.

Lemma declareRoutes_methods decls : forall cls,
  methodMetadata cls = None ->
  getMetadataList (methodMetadata (foldl (fun cls d => declareRoute d cls) cls decls))
  = decls
  /\ (decls <> [] ->
      is_Some (methodMetadata (foldl (fun cls d => declareRoute d cls) cls decls))).
Proof.
  induction decls as [|d rest IH] using rev_ind; intros cls Hnone.
  - simpl. rewrite Hnone. done.
  - rewrite foldl_app. cbn [foldl].
    destruct (declareRoute_frame d (foldl (fun cls d => declareRoute d cls) cls rest))
      as [_ Hm].
    rewrite Hm. cbn [getMetadataList]. destruct (IH cls Hnone) as [-> _].
    split; [done | by eauto].
Qed.

(** X14: a class that the method decorators and then [@controller] have
    decorated is registered with one route for each declaration, in the
    order of the declarations, under the declared verb and the join of
    the controller path and the declared path; without any declaration
    it adds no route. *)
Theorem declared_routes_registered cpath cmw target base decls :
  methodMetadata base = None ->
  getAll (_container self)
  = [controller cpath cmw target (foldl (fun cls d => declareRoute d cls) base decls)] ->
  map (fun r => (verb r, path r)) (stack (registerControllers DEFAULT_ROUTING_ROOT_PATH self))
  = map (fun r => (verb r, path r)) (stack (_router self))
    ++ map (fun d => (m_method d, Utils.pathJoin [VStr cpath; VStr (m_path d)])) decls.
Proof.
  intros Hnone Hall. rewrite registerControllers_stack, Hall. simpl.
  rewrite app_nil_r, map_app. f_equal.
  unfold expectedRoutes. simpl.
  destruct (declareRoutes_methods decls base Hnone) as [Hm Hsome].
  destruct (methodMetadata (foldl _ base decls)) as [methods|] eqn:E.
  - simpl in Hm. subst methods. rewrite map_map. reflexivity.
  - destruct decls as [|d l]; [done|]. by destruct Hsome as [? ?].
Qed.

(** X15: registration keeps the routes that the router had, in front and
    in order, and adds as many routes as the controllers have declared
    methods; a controller without controller metadata or without method
    metadata adds none. *)
Theorem registerControllers_count :
  length (stack (registerControllers DEFAULT_ROUTING_ROOT_PATH self))
  = length (stack (_router self))
    + sum_list (map routeCount (getAll (_container self)))
  /\ take (length (stack (_router self)))
          (stack (registerControllers DEFAULT_ROUTING_ROOT_PATH self))
     = stack (_router self).
Proof.
  rewrite registerControllers_stack. split; [|by rewrite take_app_length].
  rewrite length_app. f_equal.
  induction (getAll (_container self)) as [|c l IH]; [done|]. simpl.
  rewrite length_app, IH. f_equal. unfold expectedRoutes, routeCount.
  destruct (controllerMetadata c), (methodMetadata c); simpl; by rewrite ?length_map.
Qed.

(** What a name finds in an array of rules that holds no rule of that
    name and has its own prototype. *)
Lemma authorizeMetadataAt_inherited (rules : gmap string AuthorizeMetadata) name :
  rules !! name = None ->
  rules !! "__proto__" = None ->
  if arrayMember name
  then exists entry, authorizeMetadataAt rules name = Some entry
                     /\ entryRequiredRoles entry = NotRoles VUndefined
  else authorizeMetadataAt rules name = None.
Proof.
  intros Hname Hproto. unfold authorizeMetadataAt, arrayMember.
  rewrite Hname, Hproto.
  destruct (decide (name = "length")) as [->|Hlength]; [by eexists|].
  rewrite (bool_decide_eq_false_2 _ Hlength).
  destruct (decide (name = "__proto__")) as [->|Hp]; [by eexists|].
  rewrite (bool_decide_eq_false_2 _ Hp). cbn [orb].
  destruct (method name (ArrayPrototype ++ ObjectPrototype)) as [length|] eqn:Hmethod.
  - rewrite bool_decide_eq_true_2 by eauto. by eexists.
  - rewrite bool_decide_eq_false_2; [done|]. by intros [? ?].
Qed.

(** X16: [@authorize] on a method stores its rule, but for a method
    called [length], for which the decorator fails.  The chain of the
    method gets the handler of the new roles as the handler of its own
    rule, in the place of the one it may have had.  The chains of the
    other methods are what they were, when the decorated method is not
    called [__proto__], with one exception: the first [@authorize] of a
    class creates the array of the rules, and from then on the route of
    a method that is called as a member of arrays is registered with an
    authorization handler made for the roles [undefined]. *)
Theorem authorize_its_method roles target key cls cm cmw metadata :
  let classGate :=
    match authorizeAllMetadata cls with
    | Some rule => [authorizationHandlerFactory (all_requiredRoles rule)]
    | None => []
    end in
  match authorize roles target key cls with
  | Throw e => key = "length" /\ e = RangeError
  | Ok cls' =>
      key <> "length"
      /\ (m_key metadata = key ->
          routeHandlers self cls' cm cmw metadata
          = cmw ++ resolveMiddleware self (m_middleware metadata)
            ++ map InlineHandler
                 (classGate ++ [authorizationHandlerFactory roles]
                  ++ [dispatcher self cls cm key]))
      /\ (m_key metadata <> key -> key <> "__proto__" ->
          routeHandlers self cls' cm cmw metadata
          = if bool_decide (is_Some (authorizeMetadata cls))
               || negb (arrayMember (m_key metadata))
            then routeHandlers self cls cm cmw metadata
            else cmw ++ resolveMiddleware self (m_middleware metadata)
                 ++ map InlineHandler
                      (classGate
                       ++ [authorizationHandlerFactory_unchecked (NotRoles VUndefined)]
                       ++ [dispatcher self cls cm (m_key metadata)]))
  end.
Proof.
  intros classGate. unfold authorize.
  destruct (decide (key = "length")) as [->|Hlength]; [done|].
  split; [done|]. rewrite !PipelineFacts.routeHandlers_shape, <- !app_assoc.
  unfold gates, dispatcher. cbn [authorizeAllMetadata authorizeMetadata parameterMetadata].
  split.
  - intros ->. do 3 f_equal. unfold authorizeMetadataAt.
    rewrite lookup_insert_eq. subst classGate.
    by destruct (authorizeAllMetadata cls).
  - intros Hne Hproto. do 3 f_equal.
    destruct (authorizeMetadata cls) as [rules|] eqn:Hrules.
    + rewrite bool_decide_eq_true_2 by eauto. cbn [orb]. do 2 f_equal.
      unfold authorizeMetadataAt. by rewrite !lookup_insert_ne.
    + rewrite bool_decide_eq_false_2 by (by intros [? ?]). cbn [orb].
      pose proof (authorizeMetadataAt_inherited
                    (<[key := {| requiredRoles := roles; a_target := target;
                                 a_key := key |}]> ∅) (m_key metadata)) as Hfound.
      rewrite !lookup_insert_ne, !lookup_empty in Hfound by done.
      specialize (Hfound eq_refl eq_refl).
      destruct (arrayMember (m_key metadata)); cbn [negb].
      * destruct Hfound as (entry & -> & ->). subst classGate.
        by destruct (authorizeAllMetadata cls).
      * by rewrite Hfound, app_nil_r.
Qed.

Lemma method_app_None name (prototype1 prototype2 : list (string * Z)) :
  method name (prototype1 ++ prototype2) = None -> method name prototype2 = None.
Proof.
  induction prototype1 as [|[k length] rest IH]; [done|]. simpl.
  destruct (k =? name)%string; [done | exact IH].
Qed.

(** A name that arrays do not know finds, in registries with the
    prototypes they were created with, what was stored under it. *)
Lemma plain_name controller key :
  arrayMember key = false ->
  prototypesKept controller = true ->
  plainRule controller key = true /\ plainBindings controller key = true.
Proof.
  unfold prototypesKept, plainRule, plainBindings.
  intros Hmember [Hrules Hbindings]%andb_prop.
  apply bool_decide_eq_true_1 in Hrules, Hbindings. split.
  - destruct (authorizeMetadata controller) as [rules|]; [|done]. simpl in Hrules.
    destruct (rules !! key) eqn:Hkey; [by unfold authorizeMetadataAt; rewrite Hkey|].
    pose proof (authorizeMetadataAt_inherited rules key Hkey Hrules) as Hfound.
    rewrite Hmember in Hfound. by rewrite Hfound.
  - destruct (parameterMetadata controller) as [bindings|]; [|done]. simpl in Hbindings.
    unfold parameterMetadataAt. rewrite Hbindings.
    destruct (bindings !! key); [done|].
    unfold arrayMember in Hmember.
    apply orb_false_elim in Hmember as [[_ Hproto]%orb_false_elim Hmethod].
    apply bool_decide_eq_false_1 in Hproto, Hmethod.
    destruct (decide (key = "__proto__")); [done|].
    destruct (method key (ArrayPrototype ++ ObjectPrototype)) eqn:E;
      [destruct Hmethod; eauto|].
    by rewrite (method_app_None _ _ _ E).
Qed.

(** X27: for a method whose name is none that arrays know ([length],
    [__proto__], the methods of [Array.prototype] and of
    [Object.prototype]), in a class without decorated method called
    [__proto__], the router holds a route under the method's verb and
    the join of the controller path and the method path whose chain is
    the chain of section 3: the resolved controller-level middleware,
    the resolved method-level middleware, the handler of the class-wide
    rule, the handler of the method's own rule, the dispatcher. *)
Theorem plain_route_specified i controller cm methods j metadata :
  getAll (_container self) !! i = Some controller ->
  controllerMetadata controller = Some cm ->
  methodMetadata controller = Some methods ->
  methods !! j = Some metadata ->
  arrayMember (m_key metadata) = false ->
  prototypesKept controller = true ->
  {| verb := m_method metadata;
     path := Utils.pathJoin [VStr (c_path cm); VStr (m_path metadata)];
     chain := specifiedChain self controller cm metadata |}
  ∈ stack (registerControllers DEFAULT_ROUTING_ROOT_PATH self).
Proof.
  intros Hc Hcm Hmethods Hm Hmember Hkept.
  destruct (plain_name controller (m_key metadata) Hmember Hkept) as [Hrule Hbindings].
  rewrite <- (RegistrationFacts.routeHandlers_specified self _ _ _ Hrule Hbindings).
  change (expectedRoute self controller cm metadata
          ∈ stack (registerControllers DEFAULT_ROUTING_ROOT_PATH self)).
  rewrite registerControllers_stack. apply list_elem_of_In, in_or_app. right.
  apply in_concat. exists (expectedRoutes self controller). split.
  - apply in_map, list_elem_of_In. by apply list_elem_of_lookup_2 in Hc.
  - unfold expectedRoutes. rewrite Hcm, Hmethods.
    apply in_map, list_elem_of_In. by apply list_elem_of_lookup_2 in Hm.
Qed.

End Registration.

Lemma declared_routes_registered_witness :
  let decls := [Sample.getTest;
                {| m_path := ":id"; m_middleware := []; m_method := "delete";
                   m_target := "TestController"; m_key := "remove" |}] in
  let self := {| _router := Facade.newRouter;
                 _container :=
                   {| bindings := ∅;
                      getAll := [controller "/api/" [] "TestController"
                                   (foldl (fun cls d => declareRoute d cls) undecorated decls)];
                      getNamed := fun _ => None |};
                 _routingConfig := "/";
                 _AuthProvider := None |} in
  methodMetadata undecorated = None
  /\ map (fun r => (verb r, path r)) (stack (registerControllers "/" self))
     = [("get", "/api"); ("delete", "/api/:id")].
Proof.
  split; [reflexivity|].
  apply (declared_routes_registered "/"
           {| _router := Facade.newRouter;
              _container :=
                {| bindings := ∅;
                   getAll := [controller "/api/" [] "TestController"
                                (foldl (fun cls d => declareRoute d cls) undecorated
                                   [Sample.getTest;
                                    {| m_path := ":id"; m_middleware := [];
                                       m_method := "delete";
                                       m_target := "TestController";
                                       m_key := "remove" |}])];
                   getNamed := fun _ => None |};
              _routingConfig := "/";
              _AuthProvider := None |}
           "/api/" [] "TestController" undecorated _ eq_refl eq_refl).
Defined.

Lemma plain_route_specified_witness :
  let self := Sample.server [InlineHandler Sample.spy] in
  let controller := Sample.controller [InlineHandler Sample.spy] in
  let cm := {| c_path := "/"; c_middleware := [InlineHandler Sample.spy];
               c_target := "TestController" |} in
  getAll (_container self) !! 0 = Some controller
  /\ controllerMetadata controller = Some cm
  /\ methodMetadata controller = Some [Sample.getTest]
  /\ [Sample.getTest] !! 0 = Some Sample.getTest
  /\ arrayMember (m_key Sample.getTest) = false
  /\ prototypesKept controller = true
  /\ {| verb := "get"; path := "/";
        chain := map InlineHandler
                   [Sample.spy; Sample.spy;
                    authorizationHandlerFactory ["admin"];
                    authorizationHandlerFactory ["editor"];
                    handlerFactory self "TestController" "getTest" []] |}
     ∈ stack (registerControllers "/" self).
Proof.
  repeat (split; [reflexivity|]).
  apply (plain_route_specified "/" (Sample.server [InlineHandler Sample.spy]) 0
           (Sample.controller [InlineHandler Sample.spy]) _ [Sample.getTest] 0
           Sample.getTest eq_refl eq_refl eq_refl eq_refl eq_refl eq_refl).
Defined.

End RegistrationMore.

(** ** The authorization gate *)

Module GateMore.
Import JS JSFacts Server ServerSpec ExtraSpec AuthorizationFacts.

(** The handler of a rule, on a request whose state holds a principal. *)
Lemma gate_principal requiredRoles ctx next p :
  statePrincipal ctx = Ok (VPrincipal p) ->
  authorizationHandlerFactory requiredRoles ctx next
  = if negb (isAuthenticated p) then Threw (HttpError 401)
    else if negb (forallb (isInRole p) requiredRoles) then Threw (HttpError 403)
    else next ctx.
Proof.
  intros Hstate. unfold authorizationHandlerFactory. rewrite Hstate. cbn [mbind result_bind truthy].
  rewrite challenge_flags. by destruct (isAuthenticated p).
Qed.

(** The handler of a rule, on a request whose state holds anything else. *)
Lemma gate_other requiredRoles requiredRoles' ctx next next' :
  (forall p, statePrincipal ctx <> Ok (VPrincipal p)) ->
  authorizationHandlerFactory requiredRoles ctx next
  = authorizationHandlerFactory requiredRoles' ctx next'
  /\ forall v ctx', authorizationHandlerFactory requiredRoles ctx next <> Returned v ctx'.
Proof.
  intros Hno. unfold authorizationHandlerFactory.
  destruct (statePrincipal ctx) as [principal|e]; [|done]. simpl.
  destruct principal as [| |b|n|s|props|f g|v|p]; simpl; try done.
  - by destruct b.
  - by destruct (negb (n =? 0)%Z).
  - by destruct (negb (s =? "")%string).
  - by destruct (Hno p).
Qed.

(** X17: two authorization handlers in a row are one handler for the
    roles of both: a request gets through the handler of the class-wide
    rule and then the handler of the method's rule exactly when it would
    get through one handler that requires all their roles, and it fails
    in the same way when it does not. *)
Theorem gates_compose roles1 roles2 ctx next :
  compose [authorizationHandlerFactory roles1; authorizationHandlerFactory roles2] ctx next
  = authorizationHandlerFactory (roles1 ++ roles2) ctx next.
Proof.
  cbn [compose].
  destruct (statePrincipal ctx) as [[| | | | | | | |p]|e] eqn:Hstate.
  9: { rewrite !(gate_principal _ _ _ p Hstate), forallb_app.
       destruct (isAuthenticated p); [|done]. simpl.
       by destruct (forallb (isInRole p) roles1). }
  all: apply gate_other; intros p; by rewrite Hstate.
Qed.

(** X18: only the set of the required roles matters to a handler, not
    their order nor how often a role is written. *)
Theorem gate_role_set roles1 roles2 ctx next :
  (forall role, role ∈ roles1 <-> role ∈ roles2) ->
  authorizationHandlerFactory roles1 ctx next = authorizationHandlerFactory roles2 ctx next.
Proof.
  intros Hset.
  destruct (statePrincipal ctx) as [[| | | | | | | |p]|e] eqn:Hstate.
  9: { rewrite !(gate_principal _ _ _ p Hstate).
       assert (forallb (isInRole p) roles1 = forallb (isInRole p) roles2) as ->; [|done].
       apply eq_true_iff_eq. rewrite !forallb_forall. split; intros H role Hin;
         apply H, list_elem_of_In, Hset, list_elem_of_In, Hin. }
  all: apply gate_other; intros p; by rewrite Hstate.
Qed.

Lemma gate_role_set_witness :
  (forall role, role ∈ ["admin"; "editor"; "admin"] <-> role ∈ ["editor"; "admin"])
  /\ authorizationHandlerFactory ["admin"; "editor"; "admin"]
       (Sample.ctxOf (VPrincipal Sample.admin)) Sample.done
     = authorizationHandlerFactory ["editor"; "admin"]
         (Sample.ctxOf (VPrincipal Sample.admin)) Sample.done.
Proof.
  assert (forall role : string,
            role ∈ ["admin"; "editor"; "admin"] <-> role ∈ ["editor"; "admin"]) as Hset.
  { intros role. rewrite !elem_of_cons, elem_of_nil. tauto. }
  split; [exact Hset|].
  apply (gate_role_set ["admin"; "editor"; "admin"] ["editor"; "admin"]
           (Sample.ctxOf (VPrincipal Sample.admin)) Sample.done Hset).
Defined.

End GateMore.

(** ** Requests through the gates of a route *)

Module PipelineMore.
Import JS JSFacts Server ServerSpec ExtraSpec PipelineFacts GateMore.

(** Where the name of the method finds a rule or nothing, the
    authorization handlers are those of the declared rules. *)
Lemma plainRule_gates controller metadata :
  plainRule controller (m_key metadata) = true ->
  gates controller (m_key metadata)
  = map authorizationHandlerFactory (ruleRoles controller metadata).
Proof.
  intros Hplain. apply RegistrationFacts.plainRule_declared in Hplain.
  unfold gates, ruleRoles. rewrite map_app. f_equal.
  - by destruct (authorizeAllMetadata controller).
  - destruct (authorizeMetadata controller) as [rules|]; [|done].
    rewrite Hplain. by destruct (rules !! m_key metadata).
Qed.

(** A row of authorization handlers, on a request whose state holds a
    principal. *)
Lemma compose_gates (rules : list (list string)) rest ctx next p :
  statePrincipal ctx = Ok (VPrincipal p) ->
  compose (map authorizationHandlerFactory rules ++ rest) ctx next
  = match rules with
    | [] => compose rest ctx next
    | _ =>
        if negb (isAuthenticated p) then Threw (HttpError 401)
        else if negb (forallb (isInRole p) (concat rules)) then Threw (HttpError 403)
        else compose rest ctx next
    end.
Proof.
  intros Hstate. induction rules as [|roles rules' IH]; [done|].
  cbn [map app compose concat]. rewrite (gate_principal _ _ _ p Hstate), IH, forallb_app.
  destruct (isAuthenticated p); [|done]. simpl.
  destruct (forallb (isInRole p) roles); [|done]. simpl.
  destruct rules'; [simpl; done | done].
Qed.

(** X19: a request to a route whose method is not called as a member of
    arrays, when the middleware before the authorization handlers passes
    it on.  With a rule on the route and a principal that is not
    authenticated it fails with 401; with an authenticated principal that
    is not in one of the roles of the class-wide rule or of the method's
    rule it fails with 403; without any rule, or with an authenticated
    principal in all the roles of both rules, it reaches the dispatcher,
    and the middleware makes of the outcome of the dispatcher what it
    will. *)
Theorem pipeline_authorization self serverMiddleware controller cm metadata before
    ctx state ctx1 ctx2 next p :
  get_prop ctx "state" = Ok (VObj state) ->
  withPrincipal self ctx = Ok ctx1 ->
  _getCurrentPrincipal self ctx = VPrincipal p ->
  plainRule controller (m_key metadata) = true ->
  resolveMiddleware self (c_middleware cm) ++ resolveMiddleware self (m_middleware metadata)
  = map InlineHandler before ->
  forwards (serverMiddleware ++ before) ctx1 ctx2 ->
  let rules := ruleRoles controller metadata in
  exists handlers (after : Outcome -> Outcome),
    functions (routeHandlers self controller cm
                 (resolveMiddleware self (c_middleware cm)) metadata)
    = Some handlers
    /\ (forall e, after (Threw e) = Threw e)
    /\ statePrincipal ctx2 = Ok (VPrincipal p)
    /\ let outcome := requestPipeline self serverMiddleware handlers ctx next in
       (rules <> [] -> isAuthenticated p = false -> outcome = Threw (HttpError 401))
       /\ (isAuthenticated p = true ->
           forall role, role ∈ concat rules -> isInRole p role = false ->
           outcome = Threw (HttpError 403))
       /\ (rules = []
           \/ (isAuthenticated p = true
               /\ forall role, role ∈ concat rules -> isInRole p role = true) ->
           outcome
           = match after (dispatcher self controller cm (m_key metadata) ctx2 next) with
             | Returned _ ctx' => Returned VUndefined ctx'
             | Threw e => Threw e
             end).
Proof.
  intros Hstate Hctx1 Hp Hplain Hbefore Hforwards rules. subst rules.
  rewrite routeHandlers_shape, Hbefore, <- map_app, (plainRule_gates _ _ Hplain).
  generalize (ruleRoles controller metadata). intros rules.
  destruct (compose_forwards _ _ _ Hforwards) as (after & Hafter & Hcompose).
  assert (statePrincipal ctx2 = Ok (VPrincipal p)) as H2.
  { rewrite (forwards_principal _ _ _ Hforwards), <- Hp.
    by apply (withPrincipal_principal self ctx state). }
  eexists _, after. split; [apply functions_handlers|]. split; [exact Hafter|].
  split; [exact H2|].
  unfold requestPipeline. cbn [compose].
  rewrite principalMiddleware_withPrincipal, Hctx1, app_assoc, Hcompose.
  rewrite (compose_gates _ _ _ _ p H2). cbn [compose].
  split; [|split].
  - intros Hne Hauth. destruct rules; [done|]. rewrite Hauth. cbn [negb].
    by rewrite Hafter.
  - intros Hauth role Hin Hrole.
    destruct rules as [|r l] eqn:E; [by apply elem_of_nil in Hin|]. rewrite Hauth.
    cbn [negb].
    assert (forallb (isInRole p) (concat (r :: l)) = false) as ->;
      [|cbn [negb]; by rewrite Hafter].
    apply not_true_is_false. intros Hall. rewrite forallb_forall in Hall.
    apply list_elem_of_In in Hin. rewrite (Hall _ Hin) in Hrole. discriminate.
  - intros [Hnone|[Hauth Hall]].
    + by rewrite Hnone.
    + destruct rules as [|r l] eqn:E; [done|]. rewrite Hauth. cbn [negb].
      assert (forallb (isInRole p) (concat (r :: l)) = true) as ->; [|done].
      apply forallb_forall. intros role Hin. apply Hall. by apply list_elem_of_In.
Qed.

Lemma pipeline_authorization_witness :
  let self := ExtraSample.secured in
  let controller := Sample.controller [InlineHandler Sample.spy] in
  let cm := {| c_path := "/"; c_middleware := [InlineHandler Sample.spy];
               c_target := "TestController" |} in
  let ctx1 := Sample.ctxOf (VPrincipal Sample.admin) in
  get_prop Sample.ctx "state" = Ok (VObj [])
  /\ withPrincipal self Sample.ctx = Ok ctx1
  /\ _getCurrentPrincipal self Sample.ctx = VPrincipal Sample.admin
  /\ plainRule controller (m_key Sample.getTest) = true
  /\ resolveMiddleware self (c_middleware cm)
     ++ resolveMiddleware self (m_middleware Sample.getTest)
     = map InlineHandler [Sample.spy; Sample.spy]
  /\ forwards ([Sample.awaitNext] ++ [Sample.spy; Sample.spy]) ctx1 ctx1
  /\ ruleRoles controller Sample.getTest = [["admin"]; ["editor"]]
  /\ exists handlers,
       functions (routeHandlers self controller cm
                    (resolveMiddleware self (c_middleware cm)) Sample.getTest)
       = Some handlers
       /\ requestPipeline self [Sample.awaitNext] handlers Sample.ctx Sample.done
          = Threw (HttpError 403).
Proof.
  split; [reflexivity|]. split; [reflexivity|]. split; [reflexivity|].
  split; [reflexivity|]. split; [reflexivity|]. split; [apply forwards_sample|].
  split; [reflexivity|].
  destruct (pipeline_authorization ExtraSample.secured [Sample.awaitNext]
              (Sample.controller [InlineHandler Sample.spy])
              {| c_path := "/"; c_middleware := [InlineHandler Sample.spy];
                 c_target := "TestController" |}
              Sample.getTest [Sample.spy; Sample.spy] Sample.ctx []
              (Sample.ctxOf (VPrincipal Sample.admin))
              (Sample.ctxOf (VPrincipal Sample.admin)) Sample.done Sample.admin
              eq_refl eq_refl eq_refl eq_refl eq_refl (forwards_sample _))
    as (handlers & after & Hfunctions & _ & _ & _ & H403 & _).
  exists handlers. split; [exact Hfunctions|].
  apply (H403 eq_refl "editor"); [|reflexivity].
  apply elem_of_cons; right. apply elem_of_cons; by left.
Defined.

End PipelineMore.

(** ** The dispatcher *)

Module DispatcherMore.
Import JS JSFacts Server ServerSpec ExtraSpec.

(** X20: what the dispatcher hands back.  A failure of the call (of the
    extraction, of the lookup of the controller, or of the method) is the
    failure of the dispatcher, unchanged.  When the method returns, the
    dispatcher returns the promise that the method returned, or
    [undefined] for any other value, never that value itself; and it
    does nothing to the context that the method left but assign the
    body. *)
Theorem dispatcher_frame self controllerName key parameterMetadata ctx next :
  let outcome := handlerFactory self controllerName key parameterMetadata ctx next in
  (forall e,
      invokeController self controllerName key parameterMetadata ctx next = Threw e ->
      outcome = Threw e)
  /\ (forall result props,
      invokeController self controllerName key parameterMetadata ctx next
      = Returned result (VObj props) ->
      exists ctx',
        outcome = Returned (if isPromise result then result else VUndefined) ctx'
        /\ (ctx' = VObj props
            \/ isPromise result = false
               /\ truthy result = true
               /\ set_prop (VObj props) "body" result = Ok ctx')).
Proof.
  intros outcome. subst outcome. unfold handlerFactory. split.
  - by intros e ->.
  - intros result props ->.
    destruct (isPromise result) eqn:Hp.
    + exists (VObj props). destruct result; try discriminate. auto.
    + rewrite andb_false_r. destruct (truthy result); [|exists (VObj props); auto]. simpl.
      destruct (truthy (default VUndefined (assoc "headerSent" props))); simpl.
      * exists (VObj props). auto.
      * exists (VObj (assoc_set "body" result props)). auto.
Qed.

(** The three cases on the sample controller, and a method that does not
    exist. *)
Example dispatcher_frame_cases :
  let self := Sample.server [] in
  invokeController self "TestController" "getTest" [] Sample.ctx Sample.done
  = Returned (VObj [("hello", VStr "world")]) Sample.ctx
  /\ invokeController self "TestController" "getLater" [] Sample.ctx Sample.done
     = Returned (VPromise (VStr "later")) Sample.ctx
  /\ invokeController self "TestController" "nothing" [] Sample.ctx Sample.done
     = Threw TypeError
  /\ invokeController self "OtherController" "getTest" [] Sample.ctx Sample.done
     = Threw (UserError "No matching bindings found").
Proof. repeat split; reflexivity. Qed.

(** X21: the dispatcher does not call the continuation itself: when the
    controller method makes no use of the continuation, the outcome of
    the dispatcher is the same whatever comes after it in the chain. *)
Theorem dispatcher_ends_chain self controllerName key parameterMetadata controller method
    ctx next next' :
  getNamed (_container self) controllerName = Some controller ->
  controller key = Some method ->
  (forall args c k k', method args c k = method args c k') ->
  handlerFactory self controllerName key parameterMetadata ctx next
  = handlerFactory self controllerName key parameterMetadata ctx next'.
Proof.
  intros Hc Hm Hignore. unfold handlerFactory, invokeController.
  destruct (extractParameters ctx nextHandle parameterMetadata) as [args|]; [|done].
  by rewrite Hc, Hm, (Hignore args ctx next next').
Qed.

Lemma dispatcher_ends_chain_witness :
  let self := Sample.server [] in
  let method : ControllerMethod :=
    fun args ctx next => Returned (VObj [("hello", VStr "world")]) ctx in
  getNamed (_container self) "TestController" = Some Sample.TestController
  /\ Sample.TestController "getTest" = Some method
  /\ (forall args c k k', method args c k = method args c k')
  /\ handlerFactory self "TestController" "getTest" [] Sample.ctx Sample.done
     = handlerFactory self "TestController" "getTest" [] Sample.ctx
         (fun _ => Threw (HttpError 500)).
Proof.
  split; [reflexivity|]. split; [reflexivity|]. split; [reflexivity|].
  apply (dispatcher_ends_chain (Sample.server []) "TestController" "getTest" []
           Sample.TestController
           (fun args ctx next => Returned (VObj [("hello", VStr "world")]) ctx)
           Sample.ctx Sample.done (fun _ => Threw (HttpError 500)));
    reflexivity.
Defined.

End DispatcherMore.

(** ** Middleware *)

Module MiddlewareMore.
Import JS JSFacts Server ServerSpec ExtraSpec PipelineFacts.

(** X23: the first middleware of [build] stores the current principal in
    the state of the context, changes no other property of the state or
    of the context, runs the rest of the chain on that context and
    returns [undefined] whatever the rest returned; a failure of the rest
    is its failure.  On a context without a state it fails with a
    [TypeError] and the rest does not run. *)
Theorem principalMiddleware_effect self props next :
  let principal := _getCurrentPrincipal self (VObj props) in
  (forall state,
      assoc "state" props = Some (VObj state) ->
      exists props' state',
        assoc "state" props' = Some (VObj state')
        /\ assoc "principal" state' = Some principal
        /\ (forall name, name <> "principal" -> assoc name state' = assoc name state)
        /\ (forall name, name <> "state" -> assoc name props' = assoc name props)
        /\ principalMiddleware self (VObj props) next
           = match next (VObj props') with
             | Returned _ ctx => Returned VUndefined ctx
             | Threw e => Threw e
             end)
  /\ (assoc "state" props = None ->
      principalMiddleware self (VObj props) next = Threw TypeError).
Proof.
  intros principal. split.
  - intros state Hstate.
    exists (assoc_set "state" (VObj (assoc_set "principal" principal state)) props),
           (assoc_set "principal" principal state).
    split; [apply assoc_set_same|]. split; [apply assoc_set_same|].
    split; [intros name Hne; by apply assoc_set_other|].
    split; [intros name Hne; by apply assoc_set_other|].
    unfold principalMiddleware. simpl. by rewrite Hstate.
  - intros Hnone. unfold principalMiddleware. simpl. by rewrite Hnone.
Qed.

End MiddlewareMore.

(** ** The constructor, the setters and [build] *)

Module FacadeFacts.
Import JS Server ServerSpec ExtraSpec Facade.

Section Build.

Variable DEFAULT_ROUTING_ROOT_PATH : string.
Variable routes : Router -> KoaRequestHandler.

(** X24: the application that [build] returns runs the principal
    middleware first (after what a custom application came with), then
    the middleware of the configuration function, then the routes of the
    router, then the middleware of the error configuration function; the
    two setters can be called in either order, and of two calls of the
    same setter the last one counts. *)
Theorem build_order container customRouter routingConfig customApp authProvider
    (config config' errorConfig : list KoaRequestHandler) :
  let fresh :=
    constructor DEFAULT_ROUTING_ROOT_PATH container customRouter routingConfig customApp
      authProvider in
  let self := setErrorConfig (uses errorConfig) (setConfig (uses config) fresh) in
  _app (build DEFAULT_ROUTING_ROOT_PATH routes self)
  = default [] customApp
    ++ [principalMiddleware (server fresh)]
    ++ config
    ++ [routes (registerControllers DEFAULT_ROUTING_ROOT_PATH (server fresh))]
    ++ errorConfig
  /\ build DEFAULT_ROUTING_ROOT_PATH routes
       (setConfig (uses config) (setErrorConfig (uses errorConfig) fresh))
     = build DEFAULT_ROUTING_ROOT_PATH routes self
  /\ build DEFAULT_ROUTING_ROOT_PATH routes (setErrorConfig (uses errorConfig)
              (setConfig (uses config) (setConfig (uses config') fresh)))
     = build DEFAULT_ROUTING_ROOT_PATH routes self.
Proof.
  intros fresh self. split; [|done].
  unfold Facade.build, self, setErrorConfig, setConfig, uses, fresh. simpl.
  destruct customApp; simpl; by rewrite <- !app_assoc.
Qed.

(** X25: [build] is not to be called twice: the router is changed in
    place, so that a second call registers every route of every
    controller once more, after the routes of the first call. *)
Theorem build_twice (self : Facade) :
  let added :=
    concat (map (expectedRoutes (server self)) (getAll (_container (server self)))) in
  stack (_router (server (build DEFAULT_ROUTING_ROOT_PATH routes
                            (build DEFAULT_ROUTING_ROOT_PATH routes self))))
  = stack (_router (server self)) ++ added ++ added.
Proof.
  intros added. unfold Facade.build. cbn [server _router].
  rewrite RegistrationMore.registerControllers_stack. cbn [_router _container].
  rewrite RegistrationMore.registerControllers_stack.
  rewrite <- app_assoc. reflexivity.
Qed.

Lemma prefix_fold (self : InversifyKoaServer) controllers : forall router,
  prefix (fold_left (registerController self) controllers router) = prefix router.
Proof.
  induction controllers as [|c l IH]; intros router; [done|]. simpl.
  by rewrite IH, RegistrationFacts.registerController_stack.
Qed.

(** X26: registration sets the prefix of the router to the configured
    root path when that is not the default one, and leaves the prefix
    alone when it is; a server constructed without a routing
    configuration sets none.  The routes that are registered do not
    depend on the root path. *)
Theorem registerControllers_prefix (self : InversifyKoaServer) rootPath :
  let self' := {| _router := _router self; _container := _container self;
                  _routingConfig := rootPath; _AuthProvider := _AuthProvider self |} in
  prefix (registerControllers DEFAULT_ROUTING_ROOT_PATH self')
  = (if decide (rootPath <> DEFAULT_ROUTING_ROOT_PATH) then Some rootPath
     else prefix (_router self))
  /\ stack (registerControllers DEFAULT_ROUTING_ROOT_PATH self')
     = stack (registerControllers DEFAULT_ROUTING_ROOT_PATH self)
  /\ forall container customRouter customApp authProvider,
       prefix (registerControllers DEFAULT_ROUTING_ROOT_PATH
                 (server (constructor DEFAULT_ROUTING_ROOT_PATH container customRouter
                            None customApp authProvider)))
       = prefix (default newRouter customRouter).
Proof.
  intros self'. split; [|split].
  - unfold Server.registerControllers. rewrite prefix_fold.
    subst self'. simpl. by destruct (decide _).
  - by rewrite !RegistrationMore.registerControllers_stack.
  - intros container customRouter customApp authProvider.
    unfold Server.registerControllers. rewrite prefix_fold. simpl.
    destruct (decide _); [done|]. by destruct customRouter.
Qed.

End Build.

End FacadeFacts.
